(** * EXT2-Ops: a shallow embedding of the ext2 image utilities

    The utilities (ext2_mkdir, ext2_cp, ext2_ln, ext2_rm, ext2_restore,
    ext2_checker and the helpers of utils.c) work on one memory-mapped
    image, typed by pointer casts.  The embedding keeps that view: the
    image is a byte-addressed store, every struct field is read and written
    at its byte offset, and each C function becomes a function on the
    store.  Loops whose exit depends on the image contents carry a fuel
    argument; [None] stands for a run that has not returned. *)

From Stdlib Require Import ZArith List Bool Lia String Ascii.
Import ListNotations.
Local Open Scope Z_scope.

(** ** The mapped image *)

Module Mem.

(** [disk] is the buffer returned by [mmap] in [init]: one byte per offset.
    Reads normalise to a byte, so every store is a valid image. *)
Definition disk := Z -> Z.

Definition get8 (d : disk) (a : Z) : Z := d a mod 256.

Definition set8 (d : disk) (a v : Z) : disk :=
  fun x => if x =? a then v mod 256 else d x.

(** Little-endian 16 and 32 bit fields. *)
Definition get16 (d : disk) (a : Z) : Z := get8 d a + 256 * get8 d (a + 1).

Definition get32 (d : disk) (a : Z) : Z := get16 d a + 65536 * get16 d (a + 2).

Definition set16 (d : disk) (a v : Z) : disk :=
  set8 (set8 d a v) (a + 1) (v / 256).

Definition set32 (d : disk) (a v : Z) : disk :=
  set16 (set16 d a v) (a + 2) (v / 65536).

(** [write_bytes d a l] stores the bytes of [l] from offset [a] on. *)
Fixpoint write_bytes (d : disk) (a : Z) (l : list Z) : disk :=
  match l with
  | [] => d
  | b :: l' => write_bytes (set8 d a b) (a + 1) l'
  end.

(** [read_bytes d a n] is the list of the [n] bytes from offset [a] on. *)
Fixpoint read_bytes (d : disk) (a : Z) (n : nat) : list Z :=
  match n with
  | O => []
  | S n' => get8 d a :: read_bytes d (a + 1) n'
  end.

(** Two stores agree outside a set of offsets. *)
Definition same_on (P : Z -> Prop) (d d' : disk) : Prop :=
  forall x, P x -> d' x = d x.

End Mem.
Import Mem.

(** ** ext2.h: the on-disk records *)

Module Ext2.

(** Modelled from the spec: the header ext2.h is not among the sources.
    The block size, the positions of the superblock (byte 1024) and of the
    group descriptor (byte 2048), the 128-byte inode record, the 8-byte
    header of a directory entry and first_ino = 11 are the spec's (sections
    2 and 3); the offsets of the fields inside each record and the values
    of the mode and file-type constants are those of the ext2 on-disk
    format that the spec describes. *)
Definition EXT2_BLOCK_SIZE : Z := 1024.
Definition EXT2_ROOT_INO : Z := 2.
Definition EXT2_GOOD_OLD_FIRST_INO : Z := 11.
Definition EXT2_S_IFLNK : Z := 40960. (* 0xA000 *)
Definition EXT2_S_IFREG : Z := 32768. (* 0x8000 *)
Definition EXT2_S_IFDIR : Z := 16384. (* 0x4000 *)
Definition EXT2_FT_REG_FILE : Z := 1.
Definition EXT2_FT_DIR : Z := 2.
Definition EXT2_FT_SYMLINK : Z := 7.
Definition sizeof_inode : Z := 128.
Definition sizeof_dir_entry : Z := 8.

(** errno.h *)
Definition ENOENT : Z := 2.
Definition EEXIST : Z := 17.
Definition EISDIR : Z := 21.
Definition EINVAL : Z := 22.
Definition ENOSPC : Z := 28.

(** struct ext2_super_block, at [disk + EXT2_BLOCK_SIZE]. *)
Definition super_block : Z := EXT2_BLOCK_SIZE.
Definition s_inodes_count (d : disk) : Z := get32 d (super_block + 0).
Definition s_blocks_count (d : disk) : Z := get32 d (super_block + 4).
Definition s_free_blocks_count (d : disk) : Z := get32 d (super_block + 12).
Definition s_free_inodes_count (d : disk) : Z := get32 d (super_block + 16).
Definition set_s_free_blocks_count (d : disk) (v : Z) : disk :=
  set32 d (super_block + 12) v.
Definition set_s_free_inodes_count (d : disk) (v : Z) : disk :=
  set32 d (super_block + 16) v.

(** struct ext2_group_desc, at [disk + 2 * EXT2_BLOCK_SIZE]. *)
Definition group_desc : Z := 2 * EXT2_BLOCK_SIZE.
Definition bg_block_bitmap (d : disk) : Z := get32 d (group_desc + 0).
Definition bg_inode_bitmap (d : disk) : Z := get32 d (group_desc + 4).
Definition bg_inode_table (d : disk) : Z := get32 d (group_desc + 8).
Definition bg_free_blocks_count (d : disk) : Z := get16 d (group_desc + 12).
Definition bg_free_inodes_count (d : disk) : Z := get16 d (group_desc + 14).
Definition bg_used_dirs_count (d : disk) : Z := get16 d (group_desc + 16).
Definition set_bg_free_blocks_count (d : disk) (v : Z) : disk :=
  set16 d (group_desc + 12) v.
Definition set_bg_free_inodes_count (d : disk) (v : Z) : disk :=
  set16 d (group_desc + 14) v.
Definition set_bg_used_dirs_count (d : disk) (v : Z) : disk :=
  set16 d (group_desc + 16) v.

(** The pointers every function derives from the group descriptor. *)
Definition block_bitmap_of (d : disk) : Z := EXT2_BLOCK_SIZE * bg_block_bitmap d.
Definition inode_bitmap_of (d : disk) : Z := EXT2_BLOCK_SIZE * bg_inode_bitmap d.
Definition inode_table_of (d : disk) : Z := EXT2_BLOCK_SIZE * bg_inode_table d.

(** struct ext2_inode; [ino] is the address of the record.
    [inode_at tbl i] is [&inode_table[i]]. *)
Definition inode_at (tbl i : Z) : Z := tbl + sizeof_inode * i.
Definition i_mode (d : disk) (ino : Z) : Z := get16 d (ino + 0).
Definition i_uid (d : disk) (ino : Z) : Z := get16 d (ino + 2).
Definition i_size (d : disk) (ino : Z) : Z := get32 d (ino + 4).
Definition i_atime (d : disk) (ino : Z) : Z := get32 d (ino + 8).
Definition i_ctime (d : disk) (ino : Z) : Z := get32 d (ino + 12).
Definition i_mtime (d : disk) (ino : Z) : Z := get32 d (ino + 16).
Definition i_dtime (d : disk) (ino : Z) : Z := get32 d (ino + 20).
Definition i_gid (d : disk) (ino : Z) : Z := get16 d (ino + 24).
Definition i_links_count (d : disk) (ino : Z) : Z := get16 d (ino + 26).
Definition i_blocks (d : disk) (ino : Z) : Z := get32 d (ino + 28).
Definition i_block (d : disk) (ino k : Z) : Z := get32 d (ino + 40 + 4 * k).
Definition set_i_mode (d : disk) (ino v : Z) : disk := set16 d (ino + 0) v.
Definition set_i_uid (d : disk) (ino v : Z) : disk := set16 d (ino + 2) v.
Definition set_i_size (d : disk) (ino v : Z) : disk := set32 d (ino + 4) v.
Definition set_i_atime (d : disk) (ino v : Z) : disk := set32 d (ino + 8) v.
Definition set_i_ctime (d : disk) (ino v : Z) : disk := set32 d (ino + 12) v.
Definition set_i_mtime (d : disk) (ino v : Z) : disk := set32 d (ino + 16) v.
Definition set_i_dtime (d : disk) (ino v : Z) : disk := set32 d (ino + 20) v.
Definition set_i_gid (d : disk) (ino v : Z) : disk := set16 d (ino + 24) v.
Definition set_i_links_count (d : disk) (ino v : Z) : disk := set16 d (ino + 26) v.
Definition set_i_blocks (d : disk) (ino v : Z) : disk := set32 d (ino + 28) v.
Definition set_i_flags (d : disk) (ino v : Z) : disk := set32 d (ino + 32) v.
Definition set_osd1 (d : disk) (ino v : Z) : disk := set32 d (ino + 36) v.
Definition set_i_block (d : disk) (ino k v : Z) : disk := set32 d (ino + 40 + 4 * k) v.
Definition set_i_generation (d : disk) (ino v : Z) : disk := set32 d (ino + 100) v.
Definition set_i_file_acl (d : disk) (ino v : Z) : disk := set32 d (ino + 104) v.
Definition set_i_dir_acl (d : disk) (ino v : Z) : disk := set32 d (ino + 108) v.
Definition set_i_faddr (d : disk) (ino v : Z) : disk := set32 d (ino + 112) v.

(** struct ext2_dir_entry; [e] is the address of the entry, the name
    follows the 8-byte header. *)
Definition de_inode (d : disk) (e : Z) : Z := get32 d (e + 0).
Definition rec_len (d : disk) (e : Z) : Z := get16 d (e + 4).
Definition name_len (d : disk) (e : Z) : Z := get8 d (e + 6).
Definition file_type (d : disk) (e : Z) : Z := get8 d (e + 7).
Definition de_name (e : Z) : Z := e + 8.
Definition set_de_inode (d : disk) (e v : Z) : disk := set32 d (e + 0) v.
Definition set_rec_len (d : disk) (e v : Z) : disk := set16 d (e + 4) v.
Definition set_name_len (d : disk) (e v : Z) : disk := set8 d (e + 6) v.
Definition set_file_type (d : disk) (e v : Z) : disk := set8 d (e + 7) v.

End Ext2.
Import Ext2.

(** ** string.h and libgen.h on C strings

    A C string is the list of its bytes before the terminating NUL. *)

Module CString.

Definition cstring := list Z.

Definition of_string (s : string) : cstring :=
  List.map (fun c => Z.of_N (N_of_ascii c)) (list_ascii_of_string s).

Definition strlen (s : cstring) : Z := Z.of_nat (List.length s).

(** [strncmp_mem d a s n] is [strncmp(p, s, n) == 0] for [p] the image
    bytes at offset [a]: at most [n] bytes are compared, and the comparison
    stops at the first difference or at a NUL. *)
Fixpoint strncmp_mem (d : disk) (a : Z) (s : cstring) (n : nat) {struct n} : bool :=
  match n with
  | O => true
  | S n' =>
      match s with
      | [] => get8 d a =? 0
      | c :: s' =>
          if get8 d a =? c
          then (if c =? 0 then true else strncmp_mem d (a + 1) s' n')
          else false
      end
  end.

(** [strncmp_str s1 s2 n] is [strncmp(s1, s2, n) == 0] on two C strings. *)
Fixpoint strncmp_str (s1 s2 : cstring) (n : nat) {struct n} : bool :=
  match n with
  | O => true
  | S n' =>
      match s1, s2 with
      | [], [] => true
      | [], c :: _ => c =? 0
      | c :: _, [] => c =? 0
      | c1 :: s1', c2 :: s2' =>
          if c1 =? c2
          then (if c1 =? 0 then true else strncmp_str s1' s2' n')
          else false
      end
  end.

Definition slash : Z := 47.
Definition dot : Z := 46.

(** [strrchr(s, '/') + 1]: what follows the last slash of [s]. *)
Fixpoint after_last_slash (s : cstring) : cstring :=
  match s with
  | [] => []
  | c :: s' =>
      if existsb (Z.eqb slash) s' then after_last_slash s'
      else if c =? slash then s' else c :: s'
  end.

(** [strncpy(dst, src, n)] inside the image: [n] bytes, NUL-padded when
    [src] is shorter. *)
Fixpoint strncpy (d : disk) (dst : Z) (src : cstring) (n : nat) {struct n} : disk :=
  match n with
  | O => d
  | S n' =>
      match src with
      | [] => strncpy (set8 d dst 0) (dst + 1) [] n'
      | c :: src' => strncpy (set8 d dst c) (dst + 1) src' n'
      end
  end.

(** [strcpy(dst, src)] inside the image: the bytes and the NUL. *)
Definition strcpy (d : disk) (dst : Z) (src : cstring) : disk :=
  write_bytes d dst (src ++ [0]).

Fixpoint strip_trailing_slashes (r : cstring) : cstring :=
  match r with
  | c :: r' => if c =? slash then strip_trailing_slashes r' else r
  | [] => []
  end.

(** [basename(s)] of libgen.h. *)
Definition basename (s : cstring) : cstring :=
  match s with
  | [] => [dot]
  | _ =>
      match strip_trailing_slashes (rev s) with
      | [] => [slash]
      | r => after_last_slash (slash :: rev r)
      end
  end.

End CString.
Import CString.

(** ** utils.c *)

Module Utils.

(** [check_bitmap]: 0 on free, 1 on used.  [/] and [%] of C truncate
    toward zero. *)
Definition check_bitmap (d : disk) (bitmap index : Z) : Z :=
  Z.land (Z.shiftr (get8 d (bitmap + Z.quot index 8)) (Z.rem index 8)) 1.

Definition set_bitmap (d : disk) (bitmap index value : Z) : disk :=
  let a := bitmap + Z.quot index 8 in
  if value =? 1
  then set8 d a (Z.lor (get8 d a) (Z.shiftl 1 (Z.rem index 8)))
  else set8 d a (Z.land (get8 d a) (Z.lnot (Z.shiftl 1 (Z.rem index 8)))).

(** The scan of [new_inode] and [new_block]:
    [for (idx = start; idx < limit; idx++) if (check_bitmap(bitmap, idx) == 0) break;]
    run for at most [n] iterations. *)
Fixpoint first_clear (n : nat) (d : disk) (bitmap idx : Z) : Z :=
  match n with
  | O => idx
  | S n' =>
      if check_bitmap d bitmap idx =? 0 then idx
      else first_clear n' d bitmap (idx + 1)
  end.

Definition scan_bitmap (d : disk) (bitmap start limit : Z) : Z :=
  first_clear (Z.to_nat (limit - start)) d bitmap start.

(** [new_inode]: the image after the call and the value the callers read
    into an [int]. *)
Definition new_inode (d : disk) : disk * Z :=
  let inode_bitmap := inode_bitmap_of d in
  let free_inode_idx :=
    scan_bitmap d inode_bitmap EXT2_GOOD_OLD_FIRST_INO (s_inodes_count d) in
  if free_inode_idx =? s_inodes_count d then (d, - ENOSPC)
  else
    let d := set_bitmap d inode_bitmap free_inode_idx 1 in
    let d := set_s_free_inodes_count d (s_free_inodes_count d - 1) in
    let d := set_bg_free_inodes_count d (bg_free_inodes_count d - 1) in
    (d, free_inode_idx + 1).

(** [init_inode]: the record touched is [inode_table[new_inode_idx]]. *)
Definition init_inode (d : disk) (new_inode_idx now : Z) : disk :=
  let inode := inode_at (inode_table_of d) new_inode_idx in
  let d := set_i_mode d inode 0 in
  let d := set_i_size d inode 0 in
  let d := set_i_links_count d inode 0 in
  let d := set_i_atime d inode now in
  let d := set_i_ctime d inode now in
  let d := set_i_mtime d inode 0 in
  let d := set_i_dtime d inode 0 in
  let d := set_i_uid d inode 0 in
  let d := set_i_gid d inode 0 in
  let d := set_i_flags d inode 0 in
  let d := set_osd1 d inode 0 in
  let d := set_i_generation d inode 0 in
  let d := set_i_file_acl d inode 0 in
  let d := set_i_dir_acl d inode 0 in
  let d := set_i_faddr d inode 0 in
  d.

Definition new_block (d : disk) : disk * Z :=
  let block_bitmap := block_bitmap_of d in
  let free_block_idx := scan_bitmap d block_bitmap 0 (s_blocks_count d) in
  if free_block_idx =? s_blocks_count d then (d, - ENOSPC)
  else
    let d := set_bitmap d block_bitmap free_block_idx 1 in
    let d := set_s_free_blocks_count d (s_free_blocks_count d - 1) in
    let d := set_bg_free_blocks_count d (bg_free_blocks_count d - 1) in
    (d, free_block_idx + 1).

(** The size of an entry with a name of [n] bytes, rounded up to a
    multiple of 4, as [update_dir_entry] computes it for the new entry
    ([+= 4 - size % 4]) and for the last entry ([4 * (size / 4) + 4]). *)
Definition round_up_add (size : Z) : Z :=
  if Z.rem size 4 =? 0 then size else size + (4 - Z.rem size 4).

Definition round_up_mul (size : Z) : Z :=
  if Z.rem size 4 =? 0 then size else 4 * Z.quot size 4 + 4.

(** The walk of [update_dir_entry] inside one block.  [Some (Some dir)]:
    the entry at [dir] ends the block ([curr_len == EXT2_BLOCK_SIZE]);
    [Some None]: [curr_len] went past the block size. *)
Fixpoint last_entry (fuel : nat) (d : disk) (dir curr_len : Z) : option (option Z) :=
  match fuel with
  | O => None
  | S fuel' =>
      if curr_len <=? EXT2_BLOCK_SIZE then
        if curr_len =? EXT2_BLOCK_SIZE then Some (Some dir)
        else
          let dir := dir + rec_len d dir in
          last_entry fuel' d dir (curr_len + rec_len d dir)
      else Some None
  end.

(** The fields of a new entry: [file_type], [inode], [name_len], the
    name. *)
Definition write_entry (d : disk) (dir current_idx : Z) (name : cstring) (type : Z)
  : disk :=
  let d := set_file_type d dir type in
  let d := set_de_inode d dir current_idx in
  let d := set_name_len d dir (strlen name) in
  strncpy d (de_name dir) name (Z.to_nat (name_len d dir)).

(** The body of [if (curr_len == EXT2_BLOCK_SIZE)] in [update_dir_entry],
    for the last entry [dir] of block slot [i] of the parent. *)
Definition append_entry (d : disk) (parent_inode i dir current_idx : Z)
  (name : cstring) (type : Z) : disk * Z :=
  let new_size := round_up_add (sizeof_dir_entry + strlen name) in
  let last_ent_size := round_up_mul (sizeof_dir_entry + name_len d dir) in
  let space_left := rec_len d dir - last_ent_size in
  if 0 <=? space_left - new_size then
    let d := set_rec_len d dir last_ent_size in
    let dir := dir + rec_len d dir in
    let d := write_entry d dir current_idx name type in
    let d := set_rec_len d dir space_left in
    let d :=
      if Z.rem (rec_len d dir) 4 =? 0 then d
      else set_rec_len d dir (4 * Z.quot (rec_len d dir) 4 + 4) in
    (d, 0)
  else
    let '(d, block_num) := new_block d in
    if block_num <? 0 then (d, block_num)
    else
      let d := set_i_block d parent_inode (i + 1) block_num in
      let dir := EXT2_BLOCK_SIZE * block_num in
      let d := write_entry d dir current_idx name type in
      let d := set_rec_len d dir EXT2_BLOCK_SIZE in
      let d := set_i_size d parent_inode (i_size d parent_inode + EXT2_BLOCK_SIZE) in
      (d, 0).

(** The [for (i = 11; i >= 0; i--)] of [update_dir_entry], over the slots
    still to visit. *)
Fixpoint update_dir_slots (fuel : nat) (d : disk) (parent_inode : Z)
  (slots : list Z) (current_idx : Z) (name : cstring) (type : Z)
  : option (disk * Z) :=
  match slots with
  | [] => Some (d, 0)
  | i :: slots' =>
      if i_block d parent_inode i =? 0
      then update_dir_slots fuel d parent_inode slots' current_idx name type
      else
        let dir := EXT2_BLOCK_SIZE * i_block d parent_inode i in
        match last_entry fuel d dir (rec_len d dir) with
        | None => None
        | Some None =>
            update_dir_slots fuel d parent_inode slots' current_idx name type
        | Some (Some dir) =>
            Some (append_entry d parent_inode i dir current_idx name type)
        end
  end.

(** [update_dir_entry]; [current_idx] is an [unsigned short] parameter. *)
Definition update_dir_entry (fuel : nat) (d : disk) (parent_inode current_idx : Z)
  (name : cstring) (type : Z) : option (disk * Z) :=
  update_dir_slots fuel d parent_inode [11; 10; 9; 8; 7; 6; 5; 4; 3; 2; 1; 0]
    (current_idx mod 65536) name type.

(** [parse_path]: [inl errno] or [inr (path, name, rest)], where [rest] is
    what the caller's string holds after the call (the function cuts it at
    the last slash in place).  The copy of the name is taken to be
    NUL-terminated. *)
Definition parse_path (absolute_path : cstring)
  : Z + (cstring * cstring * cstring) :=
  match absolute_path with
  | [] => inl (- EINVAL)
  | c :: _ =>
      if negb (c =? slash) then inl (- EINVAL)
      else
        let len := List.length absolute_path in
        let abs_path :=
          if (1 <? Z.of_nat len) && (last absolute_path 0 =? slash)
          then removelast absolute_path else absolute_path in
        let len := List.length abs_path in
        let name := after_last_slash abs_path in
        let abs_path := firstn (len - List.length name - 1) abs_path in
        let path := match abs_path with [] => [slash] | _ => abs_path end in
        inr (path, name, abs_path)
  end.

(** [find_idx] calls itself on the blocks of every directory entry it
    meets; [find] stands for that recursive call in the two loops below.
    [find_children] is the [for (index = 0; index < 13; index++)] over the
    blocks of the entry's inode: [Some (Some r)] when a call returned
    [r > 0], [Some None] when none did. *)
Fixpoint find_children (find : Z -> option Z) (d : disk) (curr_inode : Z)
  (indices : list Z) : option (option Z) :=
  match indices with
  | [] => Some None
  | index :: indices' =>
      let block_num := i_block d curr_inode index in
      if block_num =? 0 then find_children find d curr_inode indices'
      else
        let child := EXT2_BLOCK_SIZE * block_num in
        if de_inode d child =? 0 then find_children find d curr_inode indices'
        else
          match find child with
          | None => None
          | Some result =>
              if 0 <? result then Some (Some result)
              else find_children find d curr_inode indices'
          end
  end.

(** The [while (curr_rec_len <= EXT2_BLOCK_SIZE)] of [find_idx]. *)
Fixpoint find_walk (find : Z -> option Z) (steps : nat) (d : disk) (name : cstring)
  (inode_table curr_dir curr_rec_len : Z) : option Z :=
  match steps with
  | O => None
  | S steps' =>
      if curr_rec_len <=? EXT2_BLOCK_SIZE then
        let curr_inode := inode_at inode_table (de_inode d curr_dir - 1) in
        let n := Z.to_nat (name_len d curr_dir) in
        if strncmp_mem d (de_name curr_dir) name n
        then Some (de_inode d curr_dir)
        else
          let below :=
            if (file_type d curr_dir =? EXT2_FT_DIR)
               && negb (strncmp_mem d (de_name curr_dir) [dot] n)
               && negb (strncmp_mem d (de_name curr_dir) [dot; dot] n)
            then find_children find d curr_inode
                   [0; 1; 2; 3; 4; 5; 6; 7; 8; 9; 10; 11; 12]
            else Some None in
          match below with
          | None => None
          | Some (Some result) => Some result
          | Some None =>
              if curr_rec_len =? EXT2_BLOCK_SIZE then Some (- ENOENT)
              else
                let curr_dir := curr_dir + rec_len d curr_dir in
                find_walk find steps' d name inode_table curr_dir
                  (curr_rec_len + rec_len d curr_dir)
          end
      else Some (- ENOENT)
  end.

(** [find_idx]: [None] when the fuel runs out, otherwise the value
    returned (an inode number, or [-ENOENT]). *)
Fixpoint find_idx (fuel : nat) (d : disk) (name : cstring) (dir : Z) : option Z :=
  match fuel with
  | O => None
  | S fuel' =>
      if strncmp_mem d (de_name dir) name (Z.to_nat (name_len d dir))
      then Some (de_inode d dir)
      else
        let curr_dir :=
          if de_inode d dir =? 0 then dir + rec_len d dir else dir in
        find_walk (find_idx fuel' d name) fuel' d name (inode_table_of d)
          curr_dir (rec_len d curr_dir)
  end.

End Utils.
Import Utils.
(** ** The preamble shared by the tools *)

Module Tool.

(** The result of a run that returned: the image left behind and the exit
    status of [main]. *)
Definition outcome : Type := disk * Z.

(** [root_dir] of every [main]: the first block of inode 2. *)
Definition root_dir_of (d : disk) : Z :=
  let inode_table := inode_table_of d in
  let root_inode := inode_at inode_table (EXT2_ROOT_INO - 1) in
  EXT2_BLOCK_SIZE * i_block d root_inode 0.

(** [strncmp("/", path, strlen(path)) == 0] *)
Definition is_root_path (path : cstring) : bool :=
  strncmp_str [slash] path (Z.to_nat (strlen path)).

(** [if (strncmp("/", path, strlen(path)) == 0) idx = 2;
     else idx = find_idx(disk, name, root_dir)] *)
Definition root_or_find (fuel : nat) (d : disk) (path name : cstring) : option Z :=
  if is_root_path path then Some 2 else find_idx fuel d name (root_dir_of d).

(** [for (idx = 0; idx < 12; idx++)
       if (inode->i_block[idx] == 0) { inode->i_block[idx] = b; break; }] *)
Fixpoint store_block (d : disk) (inode : Z) (slots : list Z) (b : Z) : disk :=
  match slots with
  | [] => d
  | idx :: slots' =>
      if i_block d inode idx =? 0 then set_i_block d inode idx b
      else store_block d inode slots' b
  end.

Definition direct_slots : list Z := [0; 1; 2; 3; 4; 5; 6; 7; 8; 9; 10; 11].

(** The block count of ext2_cp and ext2_ln for [size] bytes. *)
Definition blocks_needed_for (size : Z) : Z :=
  let blocks_needed := Z.quot size EXT2_BLOCK_SIZE in
  let blocks_needed :=
    if Z.rem size EXT2_BLOCK_SIZE =? 0 then blocks_needed else blocks_needed + 1 in
  if blocks_needed =? 0 then blocks_needed + 1 else blocks_needed.

(** [for (block_num = 0; block_num < blocks_needed; block_num++)]: a new
    block for each turn, stored in the first empty direct slot.  The status
    is 0, or [-new_block_idx] when [new_block] failed. *)
Fixpoint allocate_blocks (n : nat) (d : disk) (inode : Z) : disk * Z :=
  match n with
  | O => (d, 0)
  | S n' =>
      let '(d, new_block_idx) := new_block d in
      if new_block_idx <? 0 then (d, - new_block_idx)
      else allocate_blocks n' (store_block d inode direct_slots new_block_idx) inode
  end.

End Tool.
Import Tool.

(** ** ext2_mkdir.c *)

Module Mkdir.

(** The entry written at [curr_dir] for the name [nm] ("." or ".."):
    inode, name, rec_len rounded up to a multiple of 4, type. *)
Definition write_dot_entry (d : disk) (curr_dir idx : Z) (nm : cstring) : disk :=
  let d := set_de_inode d curr_dir idx in
  let d := set_name_len d curr_dir (strlen nm) in
  let d := strcpy d (de_name curr_dir) nm in
  let d := set_rec_len d curr_dir (sizeof_dir_entry + name_len d curr_dir) in
  let d :=
    if Z.rem (rec_len d curr_dir) 4 =? 0 then d
    else set_rec_len d curr_dir (rec_len d curr_dir + (4 - Z.rem (rec_len d curr_dir) 4)) in
  set_file_type d curr_dir EXT2_FT_DIR.

(** [main] of ext2_mkdir, from [parse_path] on.  [curr_dir + curr_dir->rec_len]
    is arithmetic on a [struct ext2_dir_entry *]: it moves by [rec_len]
    records of [sizeof_dir_entry] bytes. *)
Definition main (fuel : nat) (d : disk) (absolute_path : cstring) (now : Z)
  : option outcome :=
  match parse_path absolute_path with
  | inl result => Some (d, result)
  | inr (path, name, _) =>
      let inode_table := inode_table_of d in
      match root_or_find fuel d path (basename path) with
      | None => None
      | Some parent_idx =>
          if parent_idx <? 0 then Some (d, parent_idx)
          else
            let parent_inode := inode_at inode_table (parent_idx - 1) in
            if Z.land (i_mode d parent_inode) EXT2_S_IFDIR =? 0
            then Some (d, - ENOENT)
            else
              match root_or_find fuel d path name with
              | None => None
              | Some curr_idx =>
                  if negb (is_root_path path) && (0 <? curr_idx)
                  then Some (d, - EEXIST)
                  else
                    let '(d, new_dir_idx) := new_inode d in
                    if new_dir_idx <? 0 then Some (d, new_dir_idx)
                    else
                      let d := init_inode d new_dir_idx now in
                      let '(d, new_block_idx) := new_block d in
                      if new_block_idx <? 0 then Some (d, - new_block_idx)
                      else
                        let curr_inode := inode_at inode_table (new_dir_idx - 1) in
                        let d := store_block d curr_inode direct_slots new_block_idx in
                        let d := set_i_mode d curr_inode EXT2_S_IFDIR in
                        let d := set_i_links_count d curr_inode
                                   (i_links_count d curr_inode + 2) in
                        let d := set_i_size d curr_inode EXT2_BLOCK_SIZE in
                        let curr_dir := EXT2_BLOCK_SIZE * i_block d curr_inode 0 in
                        let d := write_dot_entry d curr_dir new_dir_idx [dot] in
                        let curr_dir := curr_dir + sizeof_dir_entry * rec_len d curr_dir in
                        let d := write_dot_entry d curr_dir parent_idx [dot; dot] in
                        let d := set_i_links_count d parent_inode
                                   (i_links_count d parent_inode + 1) in
                        let d := set_bg_used_dirs_count d (bg_used_dirs_count d + 1) in
                        match update_dir_entry fuel d parent_inode new_dir_idx name
                                EXT2_FT_DIR with
                        | None => None
                        | Some (d, result) =>
                            if result <? 0 then Some (d, result) else Some (d, 0)
                        end
              end
      end
  end.

End Mkdir.

(** ** ext2_cp.c *)

Module Cp.

(** What [stat] reports of the host path, with the bytes of the file. *)
Record host_file : Type := { is_regular : bool; bytes : list Z }.

Definition st_size (f : host_file) : Z := Z.of_nat (List.length (bytes f)).

(** [check_local_file]: [host] is [None] when [stat] fails. *)
Definition check_local_file (host : option host_file) : Z :=
  match host with
  | None => - ENOENT
  | Some f => if is_regular f then 0 else - ENOENT
  end.

(** [main] of ext2_cp, from [check_local_file] on. *)
Definition main (fuel : nat) (d : disk) (host : option host_file)
  (absolute_path : cstring) (now : Z) : option outcome :=
  if check_local_file host <? 0 then Some (d, check_local_file host)
  else
    let size := match host with Some f => st_size f | None => 0 end in
    match parse_path absolute_path with
    | inl result => Some (d, result)
    | inr (path, name, _) =>
        let inode_table := inode_table_of d in
        match root_or_find fuel d path (basename path) with
        | None => None
        | Some parent_idx =>
            if parent_idx <? 0 then Some (d, parent_idx)
            else
              let parent_inode := inode_at inode_table (parent_idx - 1) in
              if Z.land (i_mode d parent_inode) EXT2_S_IFDIR =? 0
              then Some (d, - ENOENT)
              else
                match find_idx fuel d name (root_dir_of d) with
                | None => None
                | Some curr_idx =>
                    if 0 <? curr_idx then Some (d, - EEXIST)
                    else
                      let '(d, current_inode_idx) := new_inode d in
                      if current_inode_idx <? 0 then Some (d, current_inode_idx)
                      else
                        let d := init_inode d current_inode_idx now in
                        let curr_inode := inode_at inode_table (current_inode_idx - 1) in
                        let d := set_i_mode d curr_inode EXT2_S_IFREG in
                        let d := set_i_ctime d curr_inode now in
                        let d := set_i_size d curr_inode size in
                        let d := set_i_links_count d curr_inode 1 in
                        let blocks_needed := blocks_needed_for size in
                        if bg_free_blocks_count d <? blocks_needed
                        then Some (d, - ENOSPC)
                        else
                          let d := set_i_blocks d curr_inode blocks_needed in
                          let '(d, status) :=
                            allocate_blocks (Z.to_nat blocks_needed) d curr_inode in
                          if negb (status =? 0) then Some (d, status)
                          else
                            match update_dir_entry fuel d parent_inode
                                    current_inode_idx name EXT2_FT_REG_FILE with
                            | None => None
                            | Some (d, result) =>
                                if result <? 0 then Some (d, result) else Some (d, 0)
                            end
                end
        end
    end.

End Cp.

(** ** ext2_ln.c *)

Module Ln.

(** [main] of ext2_ln, from [strlen(src_full_path)] on; [soft_link] is the
    [-s] flag.  [parse_path] cuts the caller's string, so the later
    [strlen(src_full_path)] sees what is left of it. *)
Definition main (fuel : nat) (d : disk) (soft_link : bool)
  (src_full_path dest_full_path : cstring) (now : Z) : option outcome :=
  let src_len := strlen src_full_path in
  let inode_table := inode_table_of d in
  match parse_path src_full_path with
  | inl result => Some (d, result)
  | inr (src_path, src_name, src_rest) =>
      match root_or_find fuel d src_path src_name with
      | None => None
      | Some src_idx =>
          if negb (is_root_path src_path) && (src_idx <? 0)
          then Some (d, - ENOENT)
          else
            match parse_path dest_full_path with
            | inl result => Some (d, result)
            | inr (dest_path, dest_lnk, _) =>
                match root_or_find fuel d dest_path (basename dest_path) with
                | None => None
                | Some dest_parent_idx =>
                    if dest_parent_idx <? 0 then Some (d, dest_parent_idx)
                    else
                      let parent_inode := inode_at inode_table (dest_parent_idx - 1) in
                      if Z.land (i_mode d parent_inode) EXT2_S_IFDIR =? 0
                      then Some (d, - ENOENT)
                      else
                        match root_or_find fuel d dest_path dest_lnk with
                        | None => None
                        | Some dest_idx =>
                            if negb (is_root_path dest_path) && (0 <? dest_idx)
                            then Some (d, - EEXIST)
                            else
                              let dest_parent_inode :=
                                inode_at inode_table (dest_parent_idx - 1) in
                              if soft_link then
                                let '(d, soft_lnk_idx) := new_inode d in
                                if soft_lnk_idx <? 0 then Some (d, soft_lnk_idx)
                                else
                                  let d := init_inode d soft_lnk_idx now in
                                  let soft_lnk_inode :=
                                    inode_at inode_table (soft_lnk_idx - 1) in
                                  let d := set_i_mode d soft_lnk_inode EXT2_S_IFLNK in
                                  let d := set_i_ctime d soft_lnk_inode now in
                                  let d := set_i_size d soft_lnk_inode src_len in
                                  let d := set_i_links_count d soft_lnk_inode 2 in
                                  let blocks_needed := blocks_needed_for (strlen src_rest) in
                                  if bg_free_blocks_count d <? blocks_needed
                                  then Some (d, - ENOSPC)
                                  else
                                    let d := set_i_blocks d soft_lnk_inode blocks_needed in
                                    let '(d, status) :=
                                      allocate_blocks (Z.to_nat blocks_needed) d
                                        soft_lnk_inode in
                                    if negb (status =? 0) then Some (d, status)
                                    else
                                      match update_dir_entry fuel d dest_parent_inode
                                              soft_lnk_idx dest_lnk EXT2_FT_SYMLINK with
                                      | None => None
                                      | Some (d, result) =>
                                          if result <? 0 then Some (d, result)
                                          else Some (d, 0)
                                      end
                              else
                                match update_dir_entry fuel d dest_parent_inode
                                        src_idx dest_lnk EXT2_FT_REG_FILE with
                                | None => None
                                | Some (d, result) =>
                                    if result <? 0 then Some (d, result)
                                    else Some (d, 0)
                                end
                        end
                end
            end
      end
  end.

End Ln.

(** ** ext2_rm.c *)

Module Rm.

(** [rm_inode]: [target_inode_idx] indexes the inode table and the inode
    bitmap. *)
Definition rm_inode (d : disk) (target_inode_idx now : Z) : disk :=
  let inode_table := inode_table_of d in
  let inode_bitmap := inode_bitmap_of d in
  let inode := inode_at inode_table target_inode_idx in
  let d := set_i_links_count d inode (i_links_count d inode - 1) in
  if i_links_count d inode =? 0 then
    let d := set_i_dtime d inode now in
    let d := set_bitmap d inode_bitmap target_inode_idx 0 in
    let d := set_s_free_inodes_count d (s_free_inodes_count d + 1) in
    let d := set_bg_free_inodes_count d (bg_free_inodes_count d + 1) in
    d
  else d.

(** The loop of [rm_block],
    [for (i = 0; target_inode->i_block[i] != 0; i++)], from index [i]. *)
Fixpoint rm_block_from (fuel : nat) (d : disk) (block_bitmap target_inode i : Z)
  : option disk :=
  match fuel with
  | O => None
  | S fuel' =>
      if i_block d target_inode i =? 0 then Some d
      else
        let d := set_bitmap d block_bitmap (i_block d target_inode i - 1) 0 in
        let d := set_s_free_blocks_count d (s_free_blocks_count d + 1) in
        let d := set_bg_free_blocks_count d (bg_free_blocks_count d + 1) in
        rm_block_from fuel' d block_bitmap target_inode (i + 1)
  end.

Definition rm_block (fuel : nat) (d : disk) (target_inode : Z) : option disk :=
  rm_block_from fuel d (block_bitmap_of d) target_inode 0.

(** The [while (curr_len < EXT2_BLOCK_SIZE)] of [free_block] in the block
    of slot [i]; [prev_dir] is [None] for the NULL pointer. *)
Fixpoint free_block_walk (fuel : nat) (d : disk)
  (block_bitmap parent_inode i curr_idx : Z) (target_name : cstring)
  (prev_dir : option Z) (curr_dir curr_len : Z) : option disk :=
  match fuel with
  | O => None
  | S fuel' =>
      if curr_len <? EXT2_BLOCK_SIZE then
        if strncmp_mem d (de_name curr_dir) target_name
             (Z.to_nat (name_len d curr_dir))
        then
          match prev_dir with
          | Some prev =>
              Some (set_rec_len d prev (rec_len d prev + rec_len d curr_dir))
          | None =>
              let d := set_i_block d parent_inode i 0 in
              let d := set_bitmap d block_bitmap curr_idx 0 in
              let d := set_s_free_blocks_count d (s_free_blocks_count d + 1) in
              let d := set_bg_free_blocks_count d (bg_free_blocks_count d + 1) in
              let curr_dir := curr_dir + rec_len d curr_dir in
              free_block_walk fuel' d block_bitmap parent_inode i curr_idx
                target_name None curr_dir (curr_len + rec_len d curr_dir)
          end
        else
          let prev_dir := Some curr_dir in
          let curr_dir := curr_dir + rec_len d curr_dir in
          free_block_walk fuel' d block_bitmap parent_inode i curr_idx
            target_name prev_dir curr_dir (curr_len + rec_len d curr_dir)
      else Some d
  end.

(** The [for (i = 0; parent_inode->i_block[i] != 0; i++)] of
    [free_block], from slot [i]. *)
Fixpoint free_block_from (fuel : nat) (d : disk)
  (block_bitmap parent_inode curr_idx : Z) (target_name : cstring) (i : Z)
  : option disk :=
  match fuel with
  | O => None
  | S fuel' =>
      if i_block d parent_inode i =? 0 then Some d
      else
        let dir_block_num := i_block d parent_inode i in
        let curr_dir := EXT2_BLOCK_SIZE * dir_block_num in
        match free_block_walk fuel' d block_bitmap parent_inode i curr_idx
                target_name None curr_dir 0 with
        | None => None
        | Some d =>
            free_block_from fuel' d block_bitmap parent_inode curr_idx
              target_name (i + 1)
        end
  end.

Definition free_block (fuel : nat) (d : disk) (parent_inode curr_idx : Z)
  (target_name : cstring) : option disk :=
  free_block_from fuel d (block_bitmap_of d) parent_inode curr_idx target_name 0.

(** The end of [main]: [rm_inode(&disk, curr_idx - 1)], then [rm_block]
    when the link count is 0. *)
Definition unlink_inode (fuel : nat) (d : disk) (inode_table curr_idx now : Z)
  : option disk :=
  let curr_inode := inode_at inode_table (curr_idx - 1) in
  let d := rm_inode d (curr_idx - 1) now in
  if i_links_count d curr_inode =? 0 then rm_block fuel d curr_inode
  else Some d.

(** [main] of ext2_rm, from [parse_path] on. *)
Definition main (fuel : nat) (d : disk) (absolute_path : cstring) (now : Z)
  : option outcome :=
  match parse_path absolute_path with
  | inl result => Some (d, result)
  | inr (path, name, _) =>
      let inode_table := inode_table_of d in
      match root_or_find fuel d path (basename path) with
      | None => None
      | Some parent_idx =>
          if parent_idx <? 0 then Some (d, parent_idx)
          else
            let parent_inode := inode_at inode_table (parent_idx - 1) in
            if Z.land (i_mode d parent_inode) EXT2_S_IFDIR =? 0
            then Some (d, - ENOENT)
            else
              match find_idx fuel d name (root_dir_of d) with
              | None => None
              | Some curr_idx =>
                  if curr_idx <? 0 then Some (d, - ENOENT)
                  else
                    let curr_inode := inode_at inode_table (curr_idx - 1) in
                    if (Z.land (i_mode d curr_inode) EXT2_S_IFLNK =? 0)
                       && (Z.land (i_mode d curr_inode) EXT2_S_IFREG =? 0)
                    then Some (d, - ENOENT)
                    else
                      match free_block fuel d parent_inode curr_idx name with
                      | None => None
                      | Some d =>
                          match unlink_inode fuel d inode_table curr_idx now with
                          | None => None
                          | Some d => Some (d, 0)
                          end
                      end
              end
      end
  end.

End Rm.

(** ** ext2_restore.c *)

Module Restore.

(** The updates of [main] once a hidden entry matched: [head] is the live
    entry whose slack holds [curr_dir], [gap_counter] the distance between
    them. *)
Fixpoint mark_blocks (d : disk) (block_bitmap restored_inode : Z) (slots : list Z)
  : disk :=
  match slots with
  | [] => d
  | i :: slots' =>
      if i_block d restored_inode i =? 0
      then mark_blocks d block_bitmap restored_inode slots'
      else
        let d := set_bitmap d block_bitmap (i_block d restored_inode i - 1) 1 in
        let d := set_s_free_blocks_count d (s_free_blocks_count d - 1) in
        let d := set_bg_free_blocks_count d (bg_free_blocks_count d - 1) in
        mark_blocks d block_bitmap restored_inode slots'
  end.

Definition relink (d : disk) (inode_table inode_bitmap block_bitmap : Z)
  (head curr_dir head_len_total gap_counter now : Z) : outcome :=
  if check_bitmap d inode_bitmap (de_inode d curr_dir - 1) =? 1
  then (d, - ENOENT)
  else
    let restored_inode := inode_at inode_table (de_inode d curr_dir - 1) in
    if i_dtime d restored_inode =? 0 then (d, - ENOENT)
    else
      let d := set_s_free_inodes_count d (s_free_inodes_count d - 1) in
      let d := set_bg_free_inodes_count d (bg_free_inodes_count d - 1) in
      let d := set_bitmap d inode_bitmap (de_inode d curr_dir - 1) 1 in
      let d := set_rec_len d curr_dir (head_len_total - gap_counter) in
      let d := set_rec_len d head gap_counter in
      let d := set_i_links_count d restored_inode
                 (i_links_count d restored_inode + 1) in
      let d := set_i_dtime d restored_inode 0 in
      let d := set_i_mtime d restored_inode now in
      let d := mark_blocks d block_bitmap restored_inode direct_slots in
      (d, 0).

(** [while (gap_counter < head_len_total)]: the hidden entries in the
    slack of [head].  Every turn adds at least 8 to [gap_counter], so [n]
    turns are enough when [head_len_total <= 8 * n].  [None]: no hidden
    entry matched. *)
Fixpoint scan_gap (n : nat) (d : disk) (inode_table inode_bitmap block_bitmap : Z)
  (name : cstring) (head curr_dir head_len_total gap_counter now : Z)
  : option outcome :=
  match n with
  | O => None
  | S n' =>
      if gap_counter <? head_len_total then
        if strncmp_mem d (de_name curr_dir) name (Z.to_nat (name_len d curr_dir))
        then Some (relink d inode_table inode_bitmap block_bitmap head curr_dir
                     head_len_total gap_counter now)
        else
          let real_size := round_up_add (sizeof_dir_entry + name_len d curr_dir) in
          scan_gap n' d inode_table inode_bitmap block_bitmap name head
            (curr_dir + real_size) head_len_total (gap_counter + real_size) now
      else None
  end.

(** [while (curr_rec_len <= EXT2_BLOCK_SIZE)]: the live entries of one
    block.  [Some None]: the block holds no hidden match. *)
Fixpoint scan_block (fuel : nat) (d : disk) (inode_table inode_bitmap block_bitmap : Z)
  (name : cstring) (head curr_rec_len now : Z) : option (option outcome) :=
  match fuel with
  | O => None
  | S fuel' =>
      if curr_rec_len <=? EXT2_BLOCK_SIZE then
        let real_size := round_up_add (sizeof_dir_entry + name_len d head) in
        let head_len_total := rec_len d head in
        match scan_gap (Z.to_nat head_len_total) d inode_table inode_bitmap
                block_bitmap name head (head + real_size) head_len_total
                real_size now with
        | Some r => Some (Some r)
        | None =>
            if curr_rec_len =? EXT2_BLOCK_SIZE then Some None
            else
              let head := head + rec_len d head in
              scan_block fuel' d inode_table inode_bitmap block_bitmap name
                head (curr_rec_len + rec_len d head) now
        end
      else Some None
  end.

(** [for (i = 0; i < 12; i++)] over the blocks of the parent. *)
Fixpoint scan_slots (fuel : nat) (d : disk) (inode_table inode_bitmap block_bitmap : Z)
  (name : cstring) (parent_inode : Z) (slots : list Z) (now : Z) : option outcome :=
  match slots with
  | [] => Some (d, 0)
  | i :: slots' =>
      let block_num := i_block d parent_inode i in
      if block_num =? 0
      then scan_slots fuel d inode_table inode_bitmap block_bitmap name
             parent_inode slots' now
      else
        let head := EXT2_BLOCK_SIZE * block_num in
        match scan_block fuel d inode_table inode_bitmap block_bitmap name
                head (rec_len d head) now with
        | None => None
        | Some (Some r) => Some r
        | Some None =>
            scan_slots fuel d inode_table inode_bitmap block_bitmap name
              parent_inode slots' now
        end
  end.

(** [main] of ext2_restore, from [parse_path] on. *)
Definition main (fuel : nat) (d : disk) (absolute_path : cstring) (now : Z)
  : option outcome :=
  match parse_path absolute_path with
  | inl result => Some (d, result)
  | inr (path, name, _) =>
      let inode_table := inode_table_of d in
      match root_or_find fuel d path (basename path) with
      | None => None
      | Some parent_idx =>
          if parent_idx <? 0 then Some (d, parent_idx)
          else
            let parent_inode := inode_at inode_table (parent_idx - 1) in
            if Z.land (i_mode d parent_inode) EXT2_S_IFDIR =? 0
            then Some (d, - ENOENT)
            else
              match find_idx fuel d name (root_dir_of d) with
              | None => None
              | Some curr_idx =>
                  if 0 <? curr_idx then Some (d, - EEXIST)
                  else
                    scan_slots fuel d inode_table (inode_bitmap_of d)
                      (block_bitmap_of d) name parent_inode direct_slots now
              end
      end
  end.

End Restore.
(** ** ext2_checker.c *)

Module Checker.

(** The global pointers set by [main]. *)
Record globals : Type := {
  inode_table : Z;
  inode_bitmap : Z;
  block_bitmap : Z
}.

(** The image together with the global [total_err]. *)
Definition state : Type := disk * Z.

(** [(int)] of an unsigned 32-bit value. *)
Definition to_int (v : Z) : Z := if v <? 2147483648 then v else v - 4294967296.

(** [for (i = 0; i < count; i++) if (check_bitmap(bitmap, i)) actual--;]
    over the [n] bits from [i] on. *)
Fixpoint count_down (n : nat) (d : disk) (bitmap i actual : Z) : Z :=
  match n with
  | O => actual
  | S n' =>
      count_down n' d bitmap (i + 1)
        (if check_bitmap d bitmap i =? 0 then actual else actual - 1)
  end.

Definition check_counters (g : globals) (st : state) : state :=
  let '(d, total_err) := st in
  let actual_free_inodes :=
    count_down (Z.to_nat (s_inodes_count d)) d (inode_bitmap g) 0
      (to_int (s_inodes_count d)) in
  let '(d, total_err) :=
    if s_free_inodes_count d =? actual_free_inodes mod 4294967296 then (d, total_err)
    else
      let num_diff := Z.abs (actual_free_inodes - to_int (s_free_inodes_count d)) in
      (set_s_free_inodes_count d actual_free_inodes, total_err + num_diff) in
  let '(d, total_err) :=
    if bg_free_inodes_count d =? actual_free_inodes then (d, total_err)
    else
      let num_diff := Z.abs (actual_free_inodes - bg_free_inodes_count d) in
      (set_bg_free_inodes_count d actual_free_inodes, total_err + num_diff) in
  let actual_free_blocks :=
    count_down (Z.to_nat (s_blocks_count d)) d (block_bitmap g) 0
      (to_int (s_blocks_count d)) in
  let '(d, total_err) :=
    if s_free_blocks_count d =? actual_free_blocks mod 4294967296 then (d, total_err)
    else
      let num_diff := Z.abs (actual_free_blocks - to_int (s_free_blocks_count d)) in
      (set_s_free_blocks_count d actual_free_blocks, total_err + num_diff) in
  let '(d, total_err) :=
    if bg_free_blocks_count d =? actual_free_blocks then (d, total_err)
    else
      let num_diff := Z.abs (actual_free_blocks - bg_free_blocks_count d) in
      (set_bg_free_blocks_count d actual_free_blocks, total_err + num_diff) in
  (d, total_err).

Definition check_mode (st : state) (inode dir : Z) : state :=
  let '(d, total_err) := st in
  if negb (Z.land (i_mode d inode) EXT2_S_IFREG =? 0)
     && negb (file_type d dir =? EXT2_FT_REG_FILE)
  then (set_file_type d dir EXT2_FT_REG_FILE, total_err + 1)
  else if negb (Z.land (i_mode d inode) EXT2_S_IFDIR =? 0)
          && negb (file_type d dir =? EXT2_FT_DIR)
  then (set_file_type d dir EXT2_FT_DIR, total_err + 1)
  else if negb (Z.land (i_mode d inode) EXT2_S_IFLNK =? 0)
          && negb (file_type d dir =? EXT2_FT_SYMLINK)
  then (set_file_type d dir EXT2_FT_SYMLINK, total_err + 1)
  else (d, total_err).

(** [inode_idx] is an [unsigned short] parameter in the three checks
    below; the callers pass [curr_dir->inode]. *)
Definition check_allocated (g : globals) (st : state) (inode_idx : Z) : state :=
  let '(d, total_err) := st in
  let inode_idx := inode_idx mod 65536 in
  if check_bitmap d (inode_bitmap g) (inode_idx - 1) =? 0 then
    let d := set_bitmap d (inode_bitmap g) (inode_idx - 1) 1 in
    let d := set_s_free_inodes_count d (s_free_inodes_count d - 1) in
    let d := set_bg_free_inodes_count d (bg_free_inodes_count d - 1) in
    (d, total_err + 1)
  else (d, total_err).

Definition check_dtime (st : state) (inode : Z) : state :=
  let '(d, total_err) := st in
  if i_dtime d inode =? 0 then (d, total_err)
  else (set_i_dtime d inode 0, total_err + 1).

(** The loop of [check_block],
    [for (i = 0; inode->i_block[i] != 0; i++)], from index [i] with
    [block_count] fixes so far. *)
Fixpoint check_block_from (fuel : nat) (g : globals) (d : disk)
  (inode i block_count : Z) : option (disk * Z) :=
  match fuel with
  | O => None
  | S fuel' =>
      let block := i_block d inode i in
      if block =? 0 then Some (d, block_count)
      else if check_bitmap d (block_bitmap g) (block - 1) =? 0 then
        let d := set_bitmap d (block_bitmap g) (block - 1) 1 in
        let d := set_s_free_blocks_count d (s_free_blocks_count d - 1) in
        let d := set_bg_free_blocks_count d (bg_free_blocks_count d - 1) in
        check_block_from fuel' g d inode (i + 1) (block_count + 1)
      else check_block_from fuel' g d inode (i + 1) block_count
  end.

Definition check_block (fuel : nat) (g : globals) (st : state) (inode : Z)
  : option state :=
  let '(d, total_err) := st in
  match check_block_from fuel g d inode 0 0 with
  | None => None
  | Some (d, block_count) =>
      Some (d, if 0 <? block_count then total_err + 1 else total_err)
  end.

(** The four checks [check_dir] runs on the entry [curr_dir]. *)
Definition check_entry (fuel : nat) (g : globals) (st : state) (curr_dir : Z)
  : option state :=
  let curr_inode := inode_at (inode_table g) (de_inode (fst st) curr_dir - 1) in
  let st := check_mode st curr_inode curr_dir in
  let st := check_allocated g st (de_inode (fst st) curr_dir) in
  let st := check_dtime st curr_inode in
  check_block fuel g st curr_inode.

(** [check_dir] calls itself on the blocks of every directory entry;
    [check] stands for that call in the two loops below.  The second
    parameter of [check_dir] is never read and is left out. *)
Fixpoint check_children (check : state -> Z -> option state) (st : state)
  (curr_inode : Z) (indices : list Z) : option state :=
  match indices with
  | [] => Some st
  | index :: indices' =>
      let block_num := i_block (fst st) curr_inode index in
      if block_num =? 0 then check_children check st curr_inode indices'
      else
        let child := EXT2_BLOCK_SIZE * block_num in
        if de_inode (fst st) child =? 0
        then check_children check st curr_inode indices'
        else
          match check st child with
          | None => None
          | Some st => check_children check st curr_inode indices'
          end
  end.

(** The [while (curr_rec_len <= EXT2_BLOCK_SIZE)] of [check_dir]. *)
Fixpoint check_walk (check : state -> Z -> option state) (steps : nat)
  (g : globals) (st : state) (curr_dir curr_rec_len : Z) : option state :=
  match steps with
  | O => None
  | S steps' =>
      if curr_rec_len <=? EXT2_BLOCK_SIZE then
        let curr_inode := inode_at (inode_table g) (de_inode (fst st) curr_dir - 1) in
        match check_entry steps' g st curr_dir with
        | None => None
        | Some st =>
            let d := fst st in
            let n := Z.to_nat (name_len d curr_dir) in
            let below :=
              if (file_type d curr_dir =? EXT2_FT_DIR)
                 && negb (strncmp_mem d (de_name curr_dir) [dot] n)
                 && negb (strncmp_mem d (de_name curr_dir) [dot; dot] n)
              then check_children check st curr_inode
                     [0; 1; 2; 3; 4; 5; 6; 7; 8; 9; 10; 11; 12]
              else Some st in
            match below with
            | None => None
            | Some st =>
                if curr_rec_len =? EXT2_BLOCK_SIZE then Some st
                else
                  let curr_dir := curr_dir + rec_len (fst st) curr_dir in
                  check_walk check steps' g st curr_dir
                    (curr_rec_len + rec_len (fst st) curr_dir)
            end
        end
      else Some st
  end.

Fixpoint check_dir (fuel : nat) (g : globals) (st : state) (dir : Z) : option state :=
  match fuel with
  | O => None
  | S fuel' =>
      let d := fst st in
      let curr_dir := if de_inode d dir =? 0 then dir + rec_len d dir else dir in
      check_walk (check_dir fuel' g) fuel' g st curr_dir (rec_len d curr_dir)
  end.

(** The last line printed by [main]. *)
Inductive verdict : Type :=
  | Repaired (total_err : Z)
  | NoInconsistencies.

(** [main] of ext2_checker: the image left behind and the last line. *)
Definition main (fuel : nat) (d : disk) : option (disk * verdict) :=
  let g := {| inode_bitmap := inode_bitmap_of d;
              block_bitmap := block_bitmap_of d;
              inode_table := inode_table_of d |} in
  let st := check_counters g (d, 0) in
  let root_inode := inode_at (inode_table g) (EXT2_ROOT_INO - 1) in
  let root_dir := EXT2_BLOCK_SIZE * i_block (fst st) root_inode 0 in
  match check_dir fuel g st root_dir with
  | None => None
  | Some (d, total_err) =>
      Some (d, if 0 <? total_err then Repaired total_err else NoInconsistencies)
  end.

End Checker.

(** ** readimage.c (the dump tool) *)

Module Readimage.

(** [get_inode_type]: [None] stands for the error value -1. *)
Definition get_inode_type (mode : Z) : option ascii :=
  if negb (Z.land mode EXT2_S_IFREG =? 0) then Some "f"%char
  else if negb (Z.land mode EXT2_S_IFDIR =? 0) then Some "d"%char
  else if negb (Z.land mode EXT2_S_IFLNK =? 0) then Some "l"%char
  else None.

End Readimage.

(** ** Sample images

    Small images in the layout of the course's test disks: 128 blocks, 32
    inodes, block bitmap in block 3, inode bitmap in block 4, inode table
    in blocks 5 to 8, the root directory in block 9.  Bit [i] of the block
    bitmap stands for block [i + 1], bit [i] of the inode bitmap for inode
    [i + 1]; inodes 1 to 11 are in use. *)

Module Images.

Definition blank : disk := fun _ => 0.

(** A directory entry at address [e]. *)
Definition put_entry (d : disk) (e inode len type : Z) (name : string) : disk :=
  let d := set_de_inode d e inode in
  let d := set_rec_len d e len in
  let d := set_name_len d e (strlen (of_string name)) in
  let d := set_file_type d e type in
  write_bytes d (de_name e) (of_string name).

Fixpoint put_blocks (d : disk) (ino k : Z) (blocks : list Z) : disk :=
  match blocks with
  | [] => d
  | b :: blocks' => put_blocks (set_i_block d ino k b) ino (k + 1) blocks'
  end.

(** Inode number [n] of the table in block 5. *)
Definition put_inode (d : disk) (n mode size links : Z) (blocks : list Z) : disk :=
  let ino := inode_at (EXT2_BLOCK_SIZE * 5) (n - 1) in
  let d := set_i_mode d ino mode in
  let d := set_i_size d ino size in
  let d := set_i_links_count d ino links in
  let d := set_i_blocks d ino (2 * Z.of_nat (List.length blocks)) in
  put_blocks d ino 0 blocks.

(** Superblock and group descriptor for [used_inodes] inodes and
    [used_blocks] blocks in use, the first ones of each bitmap. *)
Fixpoint set_bits (d : disk) (bitmap i : Z) (n : nat) : disk :=
  match n with
  | O => d
  | S n' => set_bits (set_bitmap d bitmap i 1) bitmap (i + 1) n'
  end.

Definition put_layout (d : disk) (used_inodes used_blocks dirs : Z) : disk :=
  let d := set32 d (super_block + 0) 32 in
  let d := set32 d (super_block + 4) 128 in
  let d := set_s_free_blocks_count d (128 - used_blocks) in
  let d := set_s_free_inodes_count d (32 - used_inodes) in
  let d := set32 d (group_desc + 0) 3 in
  let d := set32 d (group_desc + 4) 4 in
  let d := set32 d (group_desc + 8) 5 in
  let d := set_bg_free_blocks_count d (128 - used_blocks) in
  let d := set_bg_free_inodes_count d (32 - used_inodes) in
  let d := set_bg_used_dirs_count d dirs in
  let d := set_bits d (EXT2_BLOCK_SIZE * 3) 0 (Z.to_nat used_blocks) in
  set_bits d (EXT2_BLOCK_SIZE * 4) 0 (Z.to_nat used_inodes).

Definition S_DIR : Z := Z.lor EXT2_S_IFDIR 493. (* 0755 *)
Definition S_REG : Z := Z.lor EXT2_S_IFREG 420. (* 0644 *)

(** [empty_image]: the root directory alone, "." and ".." in block 9. *)
Definition empty_image : disk :=
  let d := put_layout blank 11 9 1 in
  let d := put_inode d 2 S_DIR 1024 2 [9] in
  let d := put_entry d (1024 * 9) 2 12 EXT2_FT_DIR "." in
  put_entry d (1024 * 9 + 12) 2 1012 EXT2_FT_DIR "..".

(** [free11_image]: [empty_image] with inode 11 free. *)
Definition free11_image : disk :=
  let d := set_bitmap empty_image (EXT2_BLOCK_SIZE * 4) 10 0 in
  let d := set_s_free_inodes_count d 22 in
  set_bg_free_inodes_count d 22.

(** [tree_image]: the root holds the directory [d] (inode 12, block 10)
    and the file [hello.txt] (inode 13, 1500 bytes in blocks 11 and 12);
    [d] holds the directory [sub] (inode 14, block 13). *)
Definition tree_image : disk :=
  let d := put_layout blank 14 13 3 in
  let d := put_inode d 2 S_DIR 1024 3 [9] in
  let d := put_inode d 12 S_DIR 1024 3 [10] in
  let d := put_inode d 13 S_REG 1500 1 [11; 12] in
  let d := put_inode d 14 S_DIR 1024 2 [13] in
  let d := put_entry d (1024 * 9) 2 12 EXT2_FT_DIR "." in
  let d := put_entry d (1024 * 9 + 12) 2 12 EXT2_FT_DIR ".." in
  let d := put_entry d (1024 * 9 + 24) 12 12 EXT2_FT_DIR "d" in
  let d := put_entry d (1024 * 9 + 36) 13 988 EXT2_FT_REG_FILE "hello.txt" in
  let d := put_entry d (1024 * 10) 12 12 EXT2_FT_DIR "." in
  let d := put_entry d (1024 * 10 + 12) 2 12 EXT2_FT_DIR ".." in
  let d := put_entry d (1024 * 10 + 24) 14 1000 EXT2_FT_DIR "sub" in
  let d := put_entry d (1024 * 13) 14 12 EXT2_FT_DIR "." in
  let d := put_entry d (1024 * 13 + 12) 12 1012 EXT2_FT_DIR ".." in
  let d := write_bytes d (1024 * 11) (repeat 72 1024) in
  write_bytes d (1024 * 12) (repeat 72 476).

(** [split_dir_image]: the directory [d] (inode 12) has two blocks.
    Block 10 holds ".", ".." and [keep.txt] (inode 13, blocks 13, 14 and
    15); block 11 holds the single entry [big.txt] (inode 14, block 12). *)
Definition split_dir_image : disk :=
  let d := put_layout blank 14 15 2 in
  let d := put_inode d 2 S_DIR 1024 3 [9] in
  let d := put_inode d 12 S_DIR 2048 2 [10; 11] in
  let d := put_inode d 13 S_REG 2500 1 [13; 14; 15] in
  let d := put_inode d 14 S_REG 100 1 [12] in
  let d := put_entry d (1024 * 9) 2 12 EXT2_FT_DIR "." in
  let d := put_entry d (1024 * 9 + 12) 2 12 EXT2_FT_DIR ".." in
  let d := put_entry d (1024 * 9 + 24) 12 1000 EXT2_FT_DIR "d" in
  let d := put_entry d (1024 * 10) 12 12 EXT2_FT_DIR "." in
  let d := put_entry d (1024 * 10 + 12) 2 12 EXT2_FT_DIR ".." in
  let d := put_entry d (1024 * 10 + 24) 13 1000 EXT2_FT_REG_FILE "keep.txt" in
  let d := put_entry d (1024 * 11) 14 1024 EXT2_FT_REG_FILE "big.txt" in
  let d := write_bytes d (1024 * 12) (repeat 72 100) in
  let d := write_bytes d (1024 * 13) (repeat 72 1024) in
  let d := write_bytes d (1024 * 14) (repeat 72 1024) in
  write_bytes d (1024 * 15) (repeat 72 452).

(** [prefix_image]: the root holds the file [ab] (inode 12, block 10) and
    the directory [d] (inode 13, block 11). *)
Definition prefix_image : disk :=
  let d := put_layout blank 13 11 2 in
  let d := put_inode d 2 S_DIR 1024 3 [9] in
  let d := put_inode d 12 S_REG 5 1 [10] in
  let d := put_inode d 13 S_DIR 1024 2 [11] in
  let d := put_entry d (1024 * 9) 2 12 EXT2_FT_DIR "." in
  let d := put_entry d (1024 * 9 + 12) 2 12 EXT2_FT_DIR ".." in
  let d := put_entry d (1024 * 9 + 24) 12 12 EXT2_FT_REG_FILE "ab" in
  let d := put_entry d (1024 * 9 + 36) 13 988 EXT2_FT_DIR "d" in
  let d := put_entry d (1024 * 11) 13 12 EXT2_FT_DIR "." in
  let d := put_entry d (1024 * 11 + 12) 2 1012 EXT2_FT_DIR ".." in
  write_bytes d (1024 * 10) (of_string "hello").




(** [full_image]: [empty_image] with every inode and every block marked
    in use. *)
Definition full_image : disk :=
  let d := set_bits empty_image (EXT2_BLOCK_SIZE * 4) 0 32 in
  let d := set_bits d (EXT2_BLOCK_SIZE * 3) 0 128 in
  let d := set_s_free_inodes_count d 0 in
  let d := set_bg_free_inodes_count d 0 in
  let d := set_s_free_blocks_count d 0 in
  set_bg_free_blocks_count d 0.

(** [tiny_image]: [empty_image] with [s_inodes_count] set to 8. *)
Definition tiny_image : disk := set32 empty_image (super_block + 0) 8.

(** A host file of 1500 bytes, all ['h']. *)
Definition host_1500 : Cp.host_file :=
  {| Cp.is_regular := true; Cp.bytes := repeat 104 1500 |}.

End Images.
(** ** Vocabulary of the statements *)

Module Props.

(** The run [o] returned, and what it returned satisfies [P]. *)
Definition returns {A : Type} (o : option A) (P : A -> Prop) : Prop :=
  match o with
  | Some a => P a
  | None => False
  end.

(** Inode [k] (numbered from 1) is free, resp. in use, in the inode bitmap. *)
Definition inode_free (d : disk) (k : Z) : Prop :=
  check_bitmap d (inode_bitmap_of d) (k - 1) = 0.

Definition inode_in_use (d : disk) (k : Z) : Prop :=
  check_bitmap d (inode_bitmap_of d) (k - 1) = 1.

(** [k] is the lowest free inode number among [first .. s_inodes_count]. *)
Definition lowest_free_from (d : disk) (first k : Z) : Prop :=
  first <= k <= s_inodes_count d /\
  inode_free d k /\
  forall j, first <= j < k -> ~ inode_free d j.

(** Block [b] (numbered from 1) is free in the block bitmap. *)
Definition block_free (d : disk) (b : Z) : Prop :=
  check_bitmap d (block_bitmap_of d) (b - 1) = 0.

(** [k] is the lowest block number (numbered from 1, bit [k - 1]) whose
    bit is clear among the first [s_blocks_count] bits. *)
Definition lowest_free_block (d : disk) (k : Z) : Prop :=
  1 <= k <= s_blocks_count d /\
  block_free d k /\
  forall j, 1 <= j < k -> ~ block_free d j.

(** The number of set bits among the [n] bits of [bitmap] from bit [i]
    on. *)
Fixpoint used_bits (n : nat) (d : disk) (bitmap i : Z) : Z :=
  match n with
  | O => 0
  | S n' => check_bitmap d bitmap i + used_bits n' d bitmap (i + 1)
  end.

(** The free counts the bitmaps give: the bits that are clear among the
    first [s_inodes_count], resp. [s_blocks_count], bits. *)
Definition free_inodes_in_bitmap (d : disk) (bitmap : Z) : Z :=
  s_inodes_count d - used_bits (Z.to_nat (s_inodes_count d)) d bitmap 0.

Definition free_blocks_in_bitmap (d : disk) (bitmap : Z) : Z :=
  s_blocks_count d - used_bits (Z.to_nat (s_blocks_count d)) d bitmap 0.






(** *** Directory blocks *)

(** The name stored in the entry at [e]: its first [name_len] bytes. *)
Definition stored_name (d : disk) (e : Z) : cstring :=
  read_bytes d (de_name e) (Z.to_nat (name_len d e)).

(** The test [find_idx], [free_block] and ext2_restore apply to an entry:
    [strncmp(e->name, name, e->name_len) == 0]. *)
Definition entry_matches (d : disk) (name : cstring) (e : Z) : bool :=
  strncmp_mem d (de_name e) name (Z.to_nat (name_len d e)).

(** [find_idx] and [check_dir] go below the entry at [e]: a directory
    that passes neither test against "." and "..". *)
Definition descends (d : disk) (e : Z) : bool :=
  (file_type d e =? EXT2_FT_DIR)
  && negb (strncmp_mem d (de_name e) [dot] (Z.to_nat (name_len d e)))
  && negb (strncmp_mem d (de_name e) [dot; dot] (Z.to_nat (name_len d e))).

(** An entry the search for [name] passes by: no match, nothing below. *)
Definition bystander (d : disk) (name : cstring) (e : Z) : Prop :=
  entry_matches d name e = false /\ descends d e = false.

Definition total (lens : list Z) : Z := fold_right Z.add 0 lens.
Arguments total : simpl never.

(** From address [e] on lie consecutive entries with the record lengths
    [lens], each holding its name inside its record, all passed by in the
    search for [name]. *)
Fixpoint entries (d : disk) (name : cstring) (e : Z) (lens : list Z) : Prop :=
  match lens with
  | [] => True
  | l :: lens' =>
      rec_len d e = l /\ sizeof_dir_entry + name_len d e <= l /\
      bystander d name e /\ entries d name (e + l) lens'
  end.


(** *** Removal and restoration under the root *)




End Props.
Import Props.

(** ** Memory lemmas *)

Lemma get8_range d a : 0 <= get8 d a < 256.
Proof. unfold get8. apply Z.mod_pos_bound. lia. Qed.

Lemma get16_range d a : 0 <= get16 d a < 65536.
Proof.
  unfold get16.
  pose proof (get8_range d a). pose proof (get8_range d (a + 1)). lia.
Qed.

Lemma get32_range d a : 0 <= get32 d a < 4294967296.
Proof.
  unfold get32.
  pose proof (get16_range d a). pose proof (get16_range d (a + 2)). lia.
Qed.

Lemma set8_same d a v : get8 (set8 d a v) a = v mod 256.
Proof.
  unfold get8, set8. rewrite Z.eqb_refl. apply Z.mod_mod. lia.
Qed.

Lemma set8_other d a v b : b <> a -> get8 (set8 d a v) b = get8 d b.
Proof.
  intros H. unfold get8, set8.
  destruct (Z.eqb_spec b a); [contradiction | reflexivity].
Qed.

Lemma set8_frame d a v x : x <> a -> set8 d a v x = d x.
Proof.
  intros H. unfold set8. destruct (Z.eqb_spec x a); [contradiction | reflexivity].
Qed.

Lemma set16_frame d a v x : x < a \/ a + 2 <= x -> set16 d a v x = d x.
Proof.
  intros H. unfold set16. rewrite !set8_frame by lia. reflexivity.
Qed.

Lemma set32_frame d a v x : x < a \/ a + 4 <= x -> set32 d a v x = d x.
Proof.
  intros H. unfold set32. rewrite !set16_frame by lia. reflexivity.
Qed.

Lemma get8_ext d d' a : d' a = d a -> get8 d' a = get8 d a.
Proof. unfold get8. intros ->. reflexivity. Qed.

Lemma get16_ext d d' a :
  (forall x, a <= x < a + 2 -> d' x = d x) -> get16 d' a = get16 d a.
Proof.
  intros H. unfold get16. rewrite !(get8_ext d d') by (apply H; lia). reflexivity.
Qed.

Lemma get32_ext d d' a :
  (forall x, a <= x < a + 4 -> d' x = d x) -> get32 d' a = get32 d a.
Proof.
  intros H. unfold get32.
  rewrite !(get16_ext d d') by (intros; apply H; lia). reflexivity.
Qed.

Lemma set16_same d a v : get16 (set16 d a v) a = v mod 65536.
Proof.
  unfold get16, set16.
  rewrite set8_same, (set8_other _ (a + 1)), set8_same by lia.
  pose proof (Z.div_mod v 256 ltac:(lia)).
  pose proof (Z.mod_pos_bound v 256 ltac:(lia)).
  pose proof (Z.mod_pos_bound (v / 256) 256 ltac:(lia)).
  pose proof (Z.div_mod (v / 256) 256 ltac:(lia)).
  apply Z.mod_unique with (q := v / 256 / 256); lia.
Qed.

Lemma set32_same d a v : get32 (set32 d a v) a = v mod 4294967296.
Proof.
  unfold get32, set32.
  rewrite set16_same.
  rewrite (get16_ext (set16 d a v) (set16 (set16 d a v) (a + 2) (v / 65536)) a)
    by (intros; apply set16_frame; lia).
  rewrite set16_same.
  pose proof (Z.div_mod v 65536 ltac:(lia)).
  pose proof (Z.mod_pos_bound v 65536 ltac:(lia)).
  pose proof (Z.mod_pos_bound (v / 65536) 65536 ltac:(lia)).
  pose proof (Z.div_mod (v / 65536) 65536 ltac:(lia)).
  apply Z.mod_unique with (q := v / 65536 / 65536); lia.
Qed.

Lemma get8_set16 d a v b : b < a \/ a + 2 <= b -> get8 (set16 d a v) b = get8 d b.
Proof. intros. apply get8_ext, set16_frame; lia. Qed.

Lemma get8_set32 d a v b : b < a \/ a + 4 <= b -> get8 (set32 d a v) b = get8 d b.
Proof. intros. apply get8_ext, set32_frame; lia. Qed.

Lemma get16_set8 d a v b : a < b \/ b + 2 <= a -> get16 (set8 d a v) b = get16 d b.
Proof. intros. apply get16_ext. intros. apply set8_frame; lia. Qed.

Lemma get16_set16 d a v b :
  b + 2 <= a \/ a + 2 <= b -> get16 (set16 d a v) b = get16 d b.
Proof. intros. apply get16_ext. intros. apply set16_frame; lia. Qed.

Lemma get16_set32 d a v b :
  b + 2 <= a \/ a + 4 <= b -> get16 (set32 d a v) b = get16 d b.
Proof. intros. apply get16_ext. intros. apply set32_frame; lia. Qed.

Lemma get32_set8 d a v b : a < b \/ b + 4 <= a -> get32 (set8 d a v) b = get32 d b.
Proof. intros. apply get32_ext. intros. apply set8_frame; lia. Qed.

Lemma get32_set16 d a v b :
  b + 4 <= a \/ a + 2 <= b -> get32 (set16 d a v) b = get32 d b.
Proof. intros. apply get32_ext. intros. apply set16_frame; lia. Qed.

Lemma get32_set32 d a v b :
  b + 4 <= a \/ a + 4 <= b -> get32 (set32 d a v) b = get32 d b.
Proof. intros. apply get32_ext. intros. apply set32_frame; lia. Qed.

(** ** Bitmaps *)

Lemma quot_rem_index i :
  0 <= i -> Z.quot i 8 = i / 8 /\ Z.rem i 8 = i mod 8 /\ 0 <= i mod 8 < 8.
Proof.
  intros H. rewrite Z.quot_div_nonneg, Z.rem_mod_nonneg by lia.
  pose proof (Z.mod_pos_bound i 8 ltac:(lia)). auto.
Qed.

Lemma land_shiftr_1 b k :
  0 <= k -> Z.land (Z.shiftr b k) 1 = Z.b2z (Z.testbit b k).
Proof.
  intros H.
  change 1 with (Z.ones 1). rewrite Z.land_ones by lia.
  change (2 ^ 1) with 2. rewrite <- Z.bit0_mod.
  rewrite Z.shiftr_spec by lia. reflexivity.
Qed.

Lemma check_bitmap_testbit d bitmap i :
  0 <= i ->
  check_bitmap d bitmap i = Z.b2z (Z.testbit (get8 d (bitmap + i / 8)) (i mod 8)).
Proof.
  intros H. unfold check_bitmap.
  destruct (quot_rem_index i H) as (-> & -> & ?).
  apply land_shiftr_1. lia.
Qed.

Lemma check_bitmap_01 d bitmap i :
  0 <= i -> check_bitmap d bitmap i = 0 \/ check_bitmap d bitmap i = 1.
Proof.
  intros H. rewrite check_bitmap_testbit by assumption.
  destruct (Z.testbit _ _); auto.
Qed.

Lemma testbit_set_byte b k j :
  0 <= k < 8 -> 0 <= j < 8 ->
  Z.testbit (Z.lor b (Z.shiftl 1 k) mod 256) j = (Z.testbit b j || (k =? j)).
Proof.
  intros Hk Hj. change 256 with (2 ^ 8).
  rewrite Z.mod_pow2_bits_low by lia.
  rewrite Z.lor_spec, Z.shiftl_1_l, Z.pow2_bits_eqb by lia. reflexivity.
Qed.

Lemma testbit_clear_byte b k j :
  0 <= k < 8 -> 0 <= j < 8 ->
  Z.testbit (Z.land b (Z.lnot (Z.shiftl 1 k)) mod 256) j
  = (Z.testbit b j && negb (k =? j)).
Proof.
  intros Hk Hj. change 256 with (2 ^ 8).
  rewrite Z.mod_pow2_bits_low by lia.
  rewrite Z.land_spec, Z.lnot_spec, Z.shiftl_1_l, Z.pow2_bits_eqb by lia.
  reflexivity.
Qed.

(** [set_bitmap] writes one byte of the bitmap. *)
Lemma set_bitmap_frame d bitmap i v x :
  x <> bitmap + Z.quot i 8 -> set_bitmap d bitmap i v x = d x.
Proof.
  intros H. unfold set_bitmap. destruct (v =? 1); apply set8_frame; assumption.
Qed.

Lemma check_set_bitmap_same d bitmap i :
  0 <= i -> check_bitmap (set_bitmap d bitmap i 1) bitmap i = 1.
Proof.
  intros H. rewrite check_bitmap_testbit by assumption.
  unfold set_bitmap. simpl (1 =? 1).
  destruct (quot_rem_index i H) as (-> & -> & ?).
  rewrite set8_same, testbit_set_byte by lia.
  rewrite Z.eqb_refl, orb_true_r. reflexivity.
Qed.


Lemma check_set_bitmap_other d bitmap i v j :
  0 <= i -> 0 <= j -> i <> j ->
  check_bitmap (set_bitmap d bitmap i v) bitmap j = check_bitmap d bitmap j.
Proof.
  intros Hi Hj Hne. rewrite !check_bitmap_testbit by assumption.
  unfold set_bitmap.
  destruct (quot_rem_index i Hi) as (-> & -> & ?).
  pose proof (Z.mod_pos_bound j 8 ltac:(lia)).
  destruct (Z.eq_dec (i / 8) (j / 8)) as [E | E].
  - assert (i mod 8 <> j mod 8).
    { intros E'. apply Hne.
      rewrite (Z.div_mod i 8), (Z.div_mod j 8) by lia. congruence. }
    rewrite E.
    destruct (v =? 1).
    + rewrite set8_same, testbit_set_byte by lia.
      destruct (Z.eqb_spec (i mod 8) (j mod 8)); [contradiction |].
      rewrite orb_false_r. reflexivity.
    + rewrite set8_same, testbit_clear_byte by lia.
      destruct (Z.eqb_spec (i mod 8) (j mod 8)); [contradiction |].
      rewrite andb_true_r. reflexivity.
  - destruct (v =? 1); rewrite set8_other by lia; reflexivity.
Qed.


(** [check_bitmap] reads one byte. *)
Lemma check_bitmap_ext d d' bitmap i :
  d' (bitmap + Z.quot i 8) = d (bitmap + Z.quot i 8) ->
  check_bitmap d' bitmap i = check_bitmap d bitmap i.
Proof.
  intros H. unfold check_bitmap. rewrite (get8_ext d d') by assumption. reflexivity.
Qed.

(** ** The scan of the allocator *)

Lemma first_clear_finds n d bitmap idx k :
  idx <= k -> k - idx < Z.of_nat n ->
  check_bitmap d bitmap k = 0 ->
  (forall j, idx <= j < k -> check_bitmap d bitmap j <> 0) ->
  first_clear n d bitmap idx = k.
Proof.
  revert idx. induction n as [| n IH]; intros idx Hle Hn Hk Hbelow.
  - lia.
  - simpl. destruct (Z.eqb_spec (check_bitmap d bitmap idx) 0) as [E | E].
    + destruct (Z.eq_dec idx k) as [-> | Hne]; [reflexivity |].
      exfalso. apply (Hbelow idx); [lia | assumption].
    + assert (idx <> k) by congruence.
      apply IH; try lia; try assumption.
      intros j Hj. apply Hbelow. lia.
Qed.

Lemma scan_bitmap_finds d bitmap start limit k :
  start <= k < limit ->
  check_bitmap d bitmap k = 0 ->
  (forall j, start <= j < k -> check_bitmap d bitmap j <> 0) ->
  scan_bitmap d bitmap start limit = k.
Proof.
  intros Hk H0 Hbelow. unfold scan_bitmap.
  apply first_clear_finds; try assumption; lia.
Qed.

(** ** The allocator *)

Lemma header_fields_after_high_write d d' :
  (forall x, x < 3072 -> d' x = d x) ->
  bg_block_bitmap d' = bg_block_bitmap d /\
  bg_inode_bitmap d' = bg_inode_bitmap d /\
  bg_inode_table d' = bg_inode_table d /\
  s_inodes_count d' = s_inodes_count d /\
  s_blocks_count d' = s_blocks_count d /\
  s_free_inodes_count d' = s_free_inodes_count d /\
  s_free_blocks_count d' = s_free_blocks_count d /\
  bg_free_inodes_count d' = bg_free_inodes_count d /\
  bg_free_blocks_count d' = bg_free_blocks_count d.
Proof.
  intros H.
  unfold bg_block_bitmap, bg_inode_bitmap, bg_inode_table, s_inodes_count,
    s_blocks_count, s_free_inodes_count, s_free_blocks_count,
    bg_free_inodes_count, bg_free_blocks_count, group_desc, super_block,
    EXT2_BLOCK_SIZE.
  repeat split;
    (apply get32_ext || apply get16_ext); intros; apply H; lia.
Qed.

(** C2 (as amended): [new_inode] scans the inode bitmap from bit index
    [first_ino] = 11 on, that is from inode number 12.  On an image whose
    inode bitmap lies after the group descriptor, if [k] is the lowest free
    inode number above [first_ino], [new_inode] returns [k], sets the bit
    of [k], leaves the bit of every other inode as it was, and decrements
    the free-inode counter of the superblock and of the group descriptor
    (modulo the width of each field). *)
Theorem new_inode_lowest_free_above_first_ino d k :
  3 <= bg_inode_bitmap d ->
  lowest_free_from d (EXT2_GOOD_OLD_FIRST_INO + 1) k ->
  let d' := fst (new_inode d) in
  snd (new_inode d) = k /\
  inode_in_use d' k /\
  (forall j, 1 <= j -> j <> k ->
     check_bitmap d' (inode_bitmap_of d') (j - 1)
     = check_bitmap d (inode_bitmap_of d) (j - 1)) /\
  s_free_inodes_count d' = (s_free_inodes_count d - 1) mod 2 ^ 32 /\
  bg_free_inodes_count d' = (bg_free_inodes_count d - 1) mod 2 ^ 16.
Proof.
  intros Hib (Hk & Hfree & Hbelow). unfold EXT2_GOOD_OLD_FIRST_INO in *.
  unfold inode_free in *.
  assert (Hscan : scan_bitmap d (inode_bitmap_of d) 11 (s_inodes_count d) = k - 1).
  { apply scan_bitmap_finds; [lia | assumption |].
    intros j Hj. replace j with (j + 1 - 1) by lia. apply Hbelow. lia. }
  unfold new_inode, EXT2_GOOD_OLD_FIRST_INO. rewrite Hscan.
  destruct (Z.eqb_spec (k - 1) (s_inodes_count d)) as [E | _]; [lia |].
  cbn [fst snd].
  set (bm := inode_bitmap_of d).
  set (d1 := set_bitmap d bm (k - 1) 1).
  set (d2 := set_s_free_inodes_count d1 (s_free_inodes_count d1 - 1)).
  set (d3 := set_bg_free_inodes_count d2 (bg_free_inodes_count d2 - 1)).
  assert (Hbm : 3072 <= bm) by (unfold bm, inode_bitmap_of, EXT2_BLOCK_SIZE; lia).
  assert (Hq : forall i, 0 <= i -> 0 <= Z.quot i 8).
  { intros i Hi. rewrite Z.quot_div_nonneg by lia. apply Z.div_pos; lia. }
  assert (H1 : forall x, x < 3072 -> d1 x = d x).
  { intros x Hx. apply set_bitmap_frame. specialize (Hq (k - 1)). lia. }
  destruct (header_fields_after_high_write d d1 H1)
    as (_ & Hib1 & _ & _ & _ & Hsf1 & _ & Hgf1 & _).
  assert (H2 : forall x, x < 1040 \/ 1044 <= x -> d2 x = d1 x).
  { intros x Hx. apply set32_frame.
    unfold super_block, EXT2_BLOCK_SIZE. lia. }
  assert (H3 : forall x, x < 2062 \/ 2064 <= x -> d3 x = d2 x).
  { intros x Hx. apply set16_frame.
    unfold group_desc, EXT2_BLOCK_SIZE. lia. }
  assert (Hib3 : inode_bitmap_of d3 = bm).
  { unfold bm, inode_bitmap_of. f_equal. rewrite <- Hib1.
    unfold bg_inode_bitmap, group_desc, EXT2_BLOCK_SIZE.
    apply get32_ext. intros x Hx. rewrite H3, H2 by lia. reflexivity. }
  assert (Hbits : forall i, 0 <= i ->
            check_bitmap d3 bm i = check_bitmap d1 bm i).
  { intros i Hi. apply check_bitmap_ext.
    specialize (Hq i Hi). rewrite H3, H2 by lia. reflexivity. }
  split; [lia |]. split; [| split; [| split]].
  - unfold inode_in_use. rewrite Hib3, Hbits by lia.
    apply check_set_bitmap_same. lia.
  - intros j Hj Hne. rewrite Hib3, Hbits by lia.
    apply check_set_bitmap_other; lia.
  - unfold s_free_inodes_count at 1.
    rewrite (get32_ext d2 d3) by (intros; apply H3;
      unfold super_block, EXT2_BLOCK_SIZE in *; lia).
    unfold d2, set_s_free_inodes_count. rewrite set32_same, Hsf1. reflexivity.
  - unfold bg_free_inodes_count at 1.
    unfold d3, set_bg_free_inodes_count. rewrite set16_same.
    f_equal. f_equal. rewrite <- Hgf1.
    unfold bg_free_inodes_count. apply get16_ext.
    intros x Hx. apply H2. unfold group_desc, EXT2_BLOCK_SIZE in *. lia.
Qed.

Lemma new_inode_lowest_free_above_first_ino_witness :
  snd (new_inode Images.empty_image) = 12 /\
  inode_in_use (fst (new_inode Images.empty_image)) 12.
Proof.
  assert (H : lowest_free_from Images.empty_image (EXT2_GOOD_OLD_FIRST_INO + 1) 12).
  { split; [vm_compute; split; discriminate |].
    split; [vm_compute; reflexivity |].
    intros j Hj. unfold EXT2_GOOD_OLD_FIRST_INO in Hj. lia. }
  assert (Hib : 3 <= bg_inode_bitmap Images.empty_image)
    by (vm_compute; discriminate).
  pose proof (new_inode_lowest_free_above_first_ino Images.empty_image 12 Hib H)
    as (Hr & Hu & _).
  split; assumption.
Defined.

(** C2 (as stated) fails: in [free11_image] inode 11 is free, hence the
    lowest free inode number from [first_ino] = 11 on, and [new_inode]
    returns 12. *)
Lemma new_inode_skips_first_ino :
  lowest_free_from Images.free11_image EXT2_GOOD_OLD_FIRST_INO 11 /\
  snd (new_inode Images.free11_image) = 12.
Proof.
  split; [| vm_compute; reflexivity].
  split; [vm_compute; split; discriminate |].
  split; [vm_compute; reflexivity |].
  intros j Hj. unfold EXT2_GOOD_OLD_FIRST_INO in Hj. lia.
Qed.

(** ** Removal of the last link *)











(** ** Runs on the sample images *)

(** [ext2_cp] reads the size of the host file and nothing else of it: two
    host files of the same kind and length leave the same image. *)
Lemma cp_main_ignores_bytes fuel d f1 f2 path now :
  Cp.is_regular f1 = Cp.is_regular f2 ->
  List.length (Cp.bytes f1) = List.length (Cp.bytes f2) ->
  Cp.main fuel d (Some f1) path now = Cp.main fuel d (Some f2) path now.
Proof.
  intros Hreg Hlen. unfold Cp.main, Cp.check_local_file, Cp.st_size.
  rewrite Hreg, Hlen. reflexivity.
Qed.

(** C1 (code defect): [ext2_cp] of a 1500-byte host file made of ['h']
    bytes into [/hello.txt] on [empty_image] succeeds, creates inode 12
    with [i_size] 1500 and the blocks 10 and 11, and leaves both blocks as
    they were, all zero: the host bytes are never written. *)
Theorem cp_leaves_data_blocks_unwritten :
  returns
    (Cp.main 50 Images.empty_image (Some Images.host_1500)
       (of_string "/hello.txt") 1000)
    (fun '(d, status) =>
       let ino := inode_at (inode_table_of d) 11 in
       status = 0 /\
       find_idx 50 d (of_string "hello.txt") (root_dir_of d) = Some 12 /\
       i_mode d ino = EXT2_S_IFREG /\
       i_size d ino = 1500 /\
       i_block d ino 0 = 10 /\ i_block d ino 1 = 11 /\
       firstn 1000 (Cp.bytes Images.host_1500) = repeat 104 1000 /\
       read_bytes d (EXT2_BLOCK_SIZE * 10) 1000 = repeat 0 1000 /\
       read_bytes d (EXT2_BLOCK_SIZE * 11) 500 = repeat 0 500).
Proof. vm_compute. repeat split; reflexivity. Qed.

(** C3 (code defect): [ext2_mkdir /foo] on [empty_image] succeeds and
    creates inode 12 with block 10.  In that block "." has [rec_len] 12;
    ".." is written 96 bytes into the block, not after ".", with [rec_len]
    12; nothing is written where the chain continues, at offset 12.  The
    two [rec_len]s sum to 24, not to 1024. *)
Theorem mkdir_dot_entries_do_not_fill_the_block :
  returns
    (Mkdir.main 50 Images.empty_image (of_string "/foo") 1000)
    (fun '(d, status) =>
       let ino := inode_at (inode_table_of d) 11 in
       let blk := EXT2_BLOCK_SIZE * i_block d ino 0 in
       status = 0 /\
       find_idx 50 d (of_string "foo") (root_dir_of d) = Some 12 /\
       i_mode d ino = EXT2_S_IFDIR /\
       i_block d ino 0 = 10 /\
       de_inode d blk = 12 /\
       read_bytes d (de_name blk) (Z.to_nat (name_len d blk)) = of_string "." /\
       rec_len d blk = 12 /\
       de_inode d (blk + 12) = 0 /\ rec_len d (blk + 12) = 0 /\
       de_inode d (blk + 96) = 2 /\
       read_bytes d (de_name (blk + 96)) (Z.to_nat (name_len d (blk + 96)))
       = of_string ".." /\
       rec_len d (blk + 96) = 12 /\
       rec_len d blk + rec_len d (blk + 96) = 24).
Proof. vm_compute. repeat split; reflexivity. Qed.

(** C4 (code defect): on [tree_image] the path [/d/sub] resolves to inode
    14, a directory, and [/e] does not exist.  [ext2_ln] without [-s] from
    [/d/sub] to [/e] returns 0, not [-EISDIR], and leaves an entry [e] of
    type regular file for inode 14 in the root directory. *)
Theorem ln_hard_link_accepts_a_directory :
  let d0 := Images.tree_image in
  find_idx 50 d0 (of_string "sub") (root_dir_of d0) = Some 14 /\
  Z.land (i_mode d0 (inode_at (inode_table_of d0) 13)) EXT2_S_IFDIR = EXT2_S_IFDIR /\
  find_idx 50 d0 (of_string "e") (root_dir_of d0) = Some (- ENOENT) /\
  returns
    (Ln.main 50 d0 false (of_string "/d/sub") (of_string "/e") 1000)
    (fun '(d, status) =>
       status = 0 /\ status <> - EISDIR /\
       find_idx 50 d (of_string "e") (root_dir_of d) = Some 14 /\
       de_inode d (root_dir_of d + 56) = 14 /\
       read_bytes d (de_name (root_dir_of d + 56)) 1 = of_string "e" /\
       file_type d (root_dir_of d + 56) = EXT2_FT_REG_FILE).
Proof. vm_compute. repeat split; (reflexivity || discriminate). Qed.

(** C5 (code defect): [ext2_ln -s /hello.txt /slink] on [tree_image]
    succeeds and creates inode 15 of mode [EXT2_S_IFLNK] with [i_size] 10
    and the new block 14; the block is left as it was, all zero, and does
    not hold the string [/hello.txt]. *)
Theorem ln_symbolic_link_stores_no_path :
  returns
    (Ln.main 50 Images.tree_image true (of_string "/hello.txt")
       (of_string "/slink") 1000)
    (fun '(d, status) =>
       let ino := inode_at (inode_table_of d) 14 in
       status = 0 /\
       find_idx 50 d (of_string "slink") (root_dir_of d) = Some 15 /\
       i_mode d ino = EXT2_S_IFLNK /\
       i_size d ino = strlen (of_string "/hello.txt") /\
       i_size d ino = 10 /\
       i_block d ino 0 = 14 /\ i_block d ino 1 = 0 /\
       block_free Images.tree_image 14 /\ ~ block_free d 14 /\
       read_bytes d (EXT2_BLOCK_SIZE * 14) 10 = repeat 0 10 /\
       read_bytes d (EXT2_BLOCK_SIZE * 14) 10 <> of_string "/hello.txt").
Proof. vm_compute. repeat split; (reflexivity || discriminate). Qed.

(** C8 (code defect): in [split_dir_image] the entry [big.txt] (inode 14)
    is alone in block 11, the second block of directory [d] (inode 12).
    [free_block] clears the pointer to block 11 in [d] and adds one to both
    free-block counters, but the bit it clears is bit 14 of the block
    bitmap, the bit of block 15 which belongs to [keep.txt]: the index
    passed to [set_bitmap] is the inode number.  The bit of block 11 stays
    set.  [ext2_rm /d/big.txt] does the same on its way. *)
Theorem free_block_clears_the_bit_of_the_inode_number :
  let d0 := Images.split_dir_image in
  let dir := inode_at (inode_table_of d0) 11 in
  i_block d0 dir 1 = 11 /\
  de_inode d0 (EXT2_BLOCK_SIZE * 11) = 14 /\
  rec_len d0 (EXT2_BLOCK_SIZE * 11) = EXT2_BLOCK_SIZE /\
  ~ block_free d0 11 /\ ~ block_free d0 15 /\
  returns
    (Rm.free_block 50 d0 dir 14 (of_string "big.txt"))
    (fun d =>
       i_block d dir 1 = 0 /\
       ~ block_free d 11 /\
       block_free d 15 /\
       s_free_blocks_count d = s_free_blocks_count d0 + 1 /\
       bg_free_blocks_count d = bg_free_blocks_count d0 + 1) /\
  returns
    (Rm.main 50 d0 (of_string "/d/big.txt") 1000)
    (fun '(d, status) =>
       status = 0 /\ i_block d dir 1 = 0 /\ ~ block_free d 11 /\ block_free d 15).
Proof. vm_compute. repeat split; (reflexivity || discriminate). Qed.

(** C9 (code defect): on [tree_image], whose only inconsistency-free
    regular file is [hello.txt], a first run of [ext2_checker] rewrites the
    type of the entry from regular file to symbolic link and reports one
    repair; a second run on the image left by the first rewrites it back
    and reports one repair again. *)
Theorem checker_second_run_repairs_again :
  let e := root_dir_of Images.tree_image + 36 in
  file_type Images.tree_image e = EXT2_FT_REG_FILE /\
  returns
    (Checker.main 50 Images.tree_image)
    (fun '(d1, v1) =>
       v1 = Checker.Repaired 1 /\
       file_type d1 e = EXT2_FT_SYMLINK /\
       returns
         (Checker.main 50 d1)
         (fun '(d2, v2) =>
            v2 = Checker.Repaired 1 /\ v2 <> Checker.NoInconsistencies /\
            file_type d2 e = EXT2_FT_REG_FILE)).
Proof. vm_compute. repeat split; (reflexivity || discriminate). Qed.

(** ** Name matching *)


(** The comparison stops after [n] bytes: what follows the stored bytes in
    the searched name is not looked at. *)
Lemma strncmp_mem_prefix n :
  forall d a rest, strncmp_mem d a (read_bytes d a n ++ rest) n = true.
Proof.
  induction n as [| n IH]; intros d a rest; [reflexivity |].
  cbn [read_bytes app strncmp_mem].
  rewrite Z.eqb_refl. destruct (get8 d a =? 0); [reflexivity | apply IH].
Qed.

Lemma entry_matches_stored_prefix d e rest :
  entry_matches d (stored_name d e ++ rest) e = true.
Proof. unfold entry_matches, stored_name. apply strncmp_mem_prefix. Qed.

Lemma name_len_range d e : 0 <= name_len d e < 256.
Proof. apply get8_range. Qed.



Lemma total_cons l lens : total (l :: lens) = l + total lens.
Proof. reflexivity. Qed.


Lemma entries_total_nonneg d name lens :
  forall e, entries d name e lens -> 0 <= total lens.
Proof.
  induction lens as [| l lens IH]; intros e H; [change (total []) with 0; lia |].
  destruct H as (Hl & Hfit & _ & Hrest). rewrite total_cons.
  specialize (IH _ Hrest). pose proof (name_len_range d e).
  unfold sizeof_dir_entry in Hfit. lia.
Qed.







(** ** The walk of [find_idx] over a directory block *)

Lemma find_walk_step find steps d name tbl e c :
  find_walk find (S steps) d name tbl e c
  = if c <=? EXT2_BLOCK_SIZE then
      if entry_matches d name e then Some (de_inode d e)
      else
        match (if descends d e
               then find_children find d (inode_at tbl (de_inode d e - 1))
                      [0; 1; 2; 3; 4; 5; 6; 7; 8; 9; 10; 11; 12]
               else Some None) with
        | None => None
        | Some (Some result) => Some result
        | Some None =>
            if c =? EXT2_BLOCK_SIZE then Some (- ENOENT)
            else find_walk find steps d name tbl (e + rec_len d e)
                   (c + rec_len d (e + rec_len d e))
        end
    else Some (- ENOENT).
Proof. reflexivity. Qed.

Lemma find_walk_match find steps d name tbl e c :
  entry_matches d name e = true -> c <= EXT2_BLOCK_SIZE ->
  find_walk find (S steps) d name tbl e c = Some (de_inode d e).
Proof.
  intros Hm Hc. rewrite find_walk_step, Hm.
  destruct (Z.leb_spec c EXT2_BLOCK_SIZE); [reflexivity | lia].
Qed.

Lemma find_walk_past find steps d name tbl e c :
  bystander d name e -> c < EXT2_BLOCK_SIZE ->
  find_walk find (S steps) d name tbl e c
  = find_walk find steps d name tbl (e + rec_len d e)
      (c + rec_len d (e + rec_len d e)).
Proof.
  intros (Hm & Hd) Hc. rewrite find_walk_step, Hm, Hd.
  destruct (Z.leb_spec c EXT2_BLOCK_SIZE); [| lia].
  destruct (Z.eqb_spec c EXT2_BLOCK_SIZE); [lia | reflexivity].
Qed.



(** Passed-by entries followed by a matching one: its inode number. *)
Lemma find_walk_to_match lens :
  forall find steps d name tbl e o,
    entries d name e lens ->
    entry_matches d name (e + total lens) = true ->
    0 < rec_len d (e + total lens) ->
    o + total lens + rec_len d (e + total lens) <= EXT2_BLOCK_SIZE ->
    (List.length lens < steps)%nat ->
    find_walk find steps d name tbl e (o + rec_len d e)
    = Some (de_inode d (e + total lens)).
Proof.
  induction lens as [| l lens IH]; intros find steps d name tbl e o H Hm Hpos Htot Hsteps.
  - change (total []) with 0 in *. rewrite ?Z.add_0_r in *.
    destruct steps as [| steps]; [simpl in Hsteps; lia |].
    apply find_walk_match; [assumption | lia].
  - destruct steps as [| steps]; [simpl in Hsteps; lia |].
    pose proof H as (Hl & Hfit & Hby & Hrest).
    pose proof (entries_total_nonneg _ _ _ _ Hrest) as Hnn.
    rewrite total_cons in *.
    replace (e + (l + total lens)) with (e + l + total lens) in * by lia.
    rewrite Hl.
    rewrite find_walk_past by (assumption || lia).
    rewrite Hl.
    apply IH; try assumption; try lia.
    simpl in Hsteps. lia.
Qed.

Lemma find_idx_step fuel d name dir :
  find_idx (S fuel) d name dir
  = if entry_matches d name dir then Some (de_inode d dir)
    else
      let curr_dir := if de_inode d dir =? 0 then dir + rec_len d dir else dir in
      find_walk (find_idx fuel d name) fuel d name (inode_table_of d)
        curr_dir (rec_len d curr_dir).
Proof. reflexivity. Qed.


Lemma find_idx_present fuel d name base lens :
  entries d name base lens ->
  entry_matches d name (base + total lens) = true ->
  0 < rec_len d (base + total lens) ->
  total lens + rec_len d (base + total lens) <= EXT2_BLOCK_SIZE ->
  de_inode d base <> 0 ->
  (S (List.length lens) < fuel)%nat ->
  find_idx fuel d name base = Some (de_inode d (base + total lens)).
Proof.
  intros H Hm Hpos Htot Hino Hfuel.
  destruct fuel as [| fuel]; [lia |].
  rewrite find_idx_step.
  destruct lens as [| l lens].
  - change (total []) with 0 in *. rewrite ?Z.add_0_r in *. rewrite Hm. reflexivity.
  - pose proof H as (_ & _ & (Hm0 & _) & _). rewrite Hm0. cbv zeta.
    destruct (Z.eqb_spec (de_inode d base) 0); [contradiction |].
    replace (rec_len d base) with (0 + rec_len d base) by lia.
    apply (find_walk_to_match (l :: lens)); try assumption; try lia.
Qed.

(** C10: the lookup compares the first [name_len] bytes of the stored
    name with the searched name.  Hence an entry matches every searched
    name that starts with its stored name, and [find_idx] returns the
    inode number of the first such entry it reaches in a block, after
    entries it passes by.  In [prefix_image], whose root holds the file
    [ab] (inode 12) and the directory [d] (inode 13), the lookup of [abc]
    returns 12, the lookup of [da] returns 13, and the tools answer
    accordingly: ext2_cp to [/abc], ext2_mkdir of [/d/abc], ext2_restore
    of [/abc] and ext2_ln to [/d/abc] report [EEXIST]; ext2_rm of [/abc]
    removes [ab]; ext2_mkdir of [/da/x] creates [x] in [d]. *)
Theorem lookup_matches_stored_prefix :
  (forall d e rest, entry_matches d (stored_name d e ++ rest) e = true) /\
  (forall fuel d base lens rest,
     let t := base + total lens in
     let name := stored_name d t ++ rest in
     entries d name base lens ->
     0 < rec_len d t ->
     total lens + rec_len d t <= EXT2_BLOCK_SIZE ->
     de_inode d base <> 0 ->
     (S (List.length lens) < fuel)%nat ->
     find_idx fuel d name base = Some (de_inode d t)) /\
  (let d := Images.prefix_image in
   let root := root_dir_of d in
   stored_name d (root + 24) = of_string "ab" /\
   de_inode d (root + 24) = 12 /\
   find_idx 50 d (of_string "abc") root = Some 12 /\
   find_idx 50 d (of_string "da") root = Some 13 /\
   find_idx 50 d (of_string "a") root = Some (- ENOENT) /\
   returns (Cp.main 50 d (Some Images.host_1500) (of_string "/abc") 1000)
     (fun '(_, status) => status = - EEXIST) /\
   returns (Mkdir.main 50 d (of_string "/d/abc") 1000)
     (fun '(_, status) => status = - EEXIST) /\
   returns (Restore.main 50 d (of_string "/abc") 1000)
     (fun '(_, status) => status = - EEXIST) /\
   returns (Ln.main 50 d false (of_string "/ab") (of_string "/d/abc") 1000)
     (fun '(_, status) => status = - EEXIST) /\
   returns (Rm.main 50 d (of_string "/abc") 1000)
     (fun '(d', status) =>
        status = 0 /\
        find_idx 50 d' (of_string "ab") (root_dir_of d') = Some (- ENOENT)) /\
   returns (Mkdir.main 50 d (of_string "/da/x") 1000)
     (fun '(d', status) =>
        status = 0 /\
        stored_name d' (EXT2_BLOCK_SIZE * 11 + 24) = of_string "x")).
Proof.
  split; [exact entry_matches_stored_prefix |].
  split.
  - intros fuel d base lens rest t name H Hpos Htot Hino Hfuel.
    apply find_idx_present; try assumption.
    apply entry_matches_stored_prefix.
  - vm_compute. repeat split; reflexivity.
Qed.

Lemma lookup_matches_stored_prefix_witness :
  let d := Images.prefix_image in
  find_idx 50 d (stored_name d (root_dir_of d + 24) ++ of_string "c") (root_dir_of d)
  = Some (de_inode d (root_dir_of d + 24)).
Proof.
  destruct lookup_matches_stored_prefix as (_ & H & _).
  apply (H 50%nat Images.prefix_image (root_dir_of Images.prefix_image) [12; 12]
           (of_string "c")).
  - vm_compute. repeat split; (reflexivity || discriminate).
  - vm_compute. reflexivity.
  - vm_compute. discriminate.
  - vm_compute. discriminate.
  - simpl. lia.
Defined.

(** ** Paths of files under the root *)

Lemma existsb_slash_false name :
  ~ In slash name -> existsb (Z.eqb slash) name = false.
Proof.
  induction name as [| c name IH]; intros H; [reflexivity |].
  cbn [existsb]. destruct (Z.eqb_spec slash c) as [E | _].
  - exfalso. apply H. left. congruence.
  - apply IH. intros Hin. apply H. right. assumption.
Qed.

Lemma last_in (l : list Z) : l <> [] -> In (last l 0) l.
Proof.
  induction l as [| a l IH]; intros H; [congruence |].
  destruct l as [| b l]; [left; reflexivity |].
  right. apply IH. discriminate.
Qed.

Lemma parse_path_under_root name :
  name <> [] -> ~ In slash name ->
  parse_path (slash :: name) = inr ([slash], name, []).
Proof.
  intros Hne Hns. unfold parse_path.
  change (slash =? slash) with true. cbn [negb].
  assert (Hlast : (last (slash :: name) 0 =? slash) = false).
  { destruct name as [| c name]; [congruence |].
    change (last (slash :: c :: name) 0) with (last (c :: name) 0).
    apply Z.eqb_neq. intros E. apply Hns. rewrite <- E.
    apply last_in. discriminate. }
  rewrite Hlast, andb_false_r.
  assert (Hname : after_last_slash (slash :: name) = name).
  { cbn [after_last_slash]. rewrite existsb_slash_false by assumption.
    reflexivity. }
  rewrite Hname. cbn [List.length].
  replace (S (List.length name) - List.length name - 1)%nat with 0%nat by lia.
  reflexivity.
Qed.

(** ** The walk of [free_block] *)





(** ** The end of ext2_rm, in the form the round trip uses *)


(** ** The loops of ext2_restore *)








(** ** Removal, then restoration, of a file under the root *)










(** The round trip on [tree_image], whose root also holds a directory:
    [ext2_rm /hello.txt], then [ext2_restore /hello.txt]. *)
Example restore_after_rm_on_tree_image :
  let d := Images.tree_image in
  let ino := inode_at (inode_table_of d) 12 in
  returns (Rm.main 50 d (of_string "/hello.txt") 1000)
    (fun '(d1, status) =>
       status = 0 /\
       i_dtime d1 ino = 1000 /\
       find_idx 50 d1 (of_string "hello.txt") (root_dir_of d1) = Some (- ENOENT) /\
       returns (Restore.main 50 d1 (of_string "/hello.txt") 2000)
         (fun '(d2, status') =>
            status' = 0 /\
            find_idx 50 d2 (of_string "hello.txt") (root_dir_of d2) = Some 13 /\
            i_dtime d2 ino = 0 /\
            i_block d2 ino 0 = 11 /\ i_block d2 ino 1 = 12 /\ i_block d2 ino 2 = 0)).
Proof. vm_compute. repeat split; reflexivity. Qed.

(** * Further properties of the helpers *)

(** ** Bitmaps *)

(** X1: [set_bitmap] followed by [check_bitmap] on the same bitmap: the
    bit written reads 1 when the value is 1 and 0 for every other value,
    and every other bit reads as before. *)
Theorem set_bitmap_then_check d bitmap i j v :
  0 <= i -> 0 <= j ->
  check_bitmap (set_bitmap d bitmap i v) bitmap j
  = if i =? j then (if v =? 1 then 1 else 0) else check_bitmap d bitmap j.
Proof.
  intros Hi Hj. destruct (Z.eqb_spec i j) as [<- | Hne].
  - destruct (Z.eqb_spec v 1) as [-> | Hv].
    + apply check_set_bitmap_same. assumption.
    + rewrite check_bitmap_testbit by assumption.
      unfold set_bitmap. destruct (Z.eqb_spec v 1); [contradiction |].
      destruct (quot_rem_index i Hi) as (-> & -> & ?).
      rewrite set8_same, testbit_clear_byte by lia.
      rewrite Z.eqb_refl, andb_false_r. reflexivity.
  - apply check_set_bitmap_other; assumption.
Qed.

Lemma set_bitmap_then_check_witness :
  check_bitmap (set_bitmap Images.empty_image 4096 20 1) 4096 20 = 1 /\
  check_bitmap (set_bitmap Images.empty_image 4096 3 0) 4096 3 = 0 /\
  check_bitmap (set_bitmap Images.empty_image 4096 3 0) 4096 4 = 1.
Proof.
  split; [| split].
  - rewrite (set_bitmap_then_check Images.empty_image 4096 20 20 1) by lia.
    reflexivity.
  - rewrite (set_bitmap_then_check Images.empty_image 4096 3 3 0) by lia.
    reflexivity.
  - rewrite (set_bitmap_then_check Images.empty_image 4096 3 4 0) by lia.
    vm_compute. reflexivity.
Defined.

(** ** The allocator *)

Lemma first_clear_none n :
  forall d bitmap idx,
    (forall j, idx <= j < idx + Z.of_nat n -> check_bitmap d bitmap j <> 0) ->
    first_clear n d bitmap idx = idx + Z.of_nat n.
Proof.
  induction n as [| n IH]; intros d bitmap idx H.
  - simpl. lia.
  - cbn [first_clear].
    destruct (Z.eqb_spec (check_bitmap d bitmap idx) 0) as [E | _].
    + exfalso. apply (H idx); [lia | assumption].
    + rewrite IH; [lia |]. intros j Hj. apply H. lia.
Qed.

(** X2: when every bit of the inode bitmap from bit 11 up to
    [s_inodes_count] is set, [new_inode] returns [-ENOSPC] and leaves the
    image as it is. *)
Theorem new_inode_no_space d :
  EXT2_GOOD_OLD_FIRST_INO <= s_inodes_count d ->
  (forall j, EXT2_GOOD_OLD_FIRST_INO <= j < s_inodes_count d ->
     check_bitmap d (inode_bitmap_of d) j <> 0) ->
  new_inode d = (d, - ENOSPC).
Proof.
  intros Hn Hfull. unfold new_inode, scan_bitmap.
  rewrite first_clear_none.
  - rewrite Z2Nat.id by lia.
    replace (EXT2_GOOD_OLD_FIRST_INO + (s_inodes_count d - EXT2_GOOD_OLD_FIRST_INO))
      with (s_inodes_count d) by lia.
    rewrite Z.eqb_refl. reflexivity.
  - intros j Hj. apply Hfull. rewrite Z2Nat.id in Hj by lia. lia.
Qed.

(** X3: on a table of fewer than 11 inodes the scan of [new_inode] does
    not run, the test against [s_inodes_count] fails, and inode 12 is
    handed out although it lies outside the table. *)
Theorem new_inode_small_table d :
  s_inodes_count d < EXT2_GOOD_OLD_FIRST_INO ->
  snd (new_inode d) = 12.
Proof.
  intros H. unfold new_inode, scan_bitmap.
  replace (Z.to_nat (s_inodes_count d - EXT2_GOOD_OLD_FIRST_INO)) with O by lia.
  cbn [first_clear].
  destruct (Z.eqb_spec EXT2_GOOD_OLD_FIRST_INO (s_inodes_count d)); [lia |].
  reflexivity.
Qed.

Lemma full_image_bits j :
  0 <= j < 32 -> check_bitmap Images.full_image 4096 j <> 0.
Proof.
  intros Hj.
  assert (H : forallb (fun j => negb (check_bitmap Images.full_image 4096 j =? 0))
                (List.map Z.of_nat (seq 0 32)) = true) by (vm_compute; reflexivity).
  rewrite forallb_forall in H.
  specialize (H j). rewrite negb_true_iff, Z.eqb_neq in H. apply H.
  replace j with (Z.of_nat (Z.to_nat j)) by lia.
  apply in_map, in_seq. lia.
Qed.

Lemma new_inode_no_space_witness :
  snd (new_inode Images.full_image) = - ENOSPC.
Proof.
  rewrite (new_inode_no_space Images.full_image).
  - reflexivity.
  - vm_compute. discriminate.
  - intros j Hj.
    change (inode_bitmap_of Images.full_image) with 4096.
    apply full_image_bits.
    assert (s_inodes_count Images.full_image = 32) by (vm_compute; reflexivity).
    unfold EXT2_GOOD_OLD_FIRST_INO in Hj. lia.
Defined.

Lemma new_inode_small_table_witness :
  s_inodes_count Images.tiny_image = 8 /\ snd (new_inode Images.tiny_image) = 12.
Proof.
  split; [vm_compute; reflexivity |].
  apply new_inode_small_table. vm_compute. reflexivity.
Defined.

(** X4: [new_block] is first-fit from bit 0.  On an image whose block
    bitmap lies after the group descriptor, if [k] is the lowest block
    number whose bit is clear, [new_block] returns [k], sets that bit,
    leaves every other bit as it was and decrements both free-block
    counters (modulo the width of each field). *)
Theorem new_block_first_fit d k :
  3 <= bg_block_bitmap d ->
  lowest_free_block d k ->
  let d' := fst (new_block d) in
  snd (new_block d) = k /\
  ~ block_free d' k /\
  (forall j, 1 <= j -> j <> k ->
     check_bitmap d' (block_bitmap_of d') (j - 1)
     = check_bitmap d (block_bitmap_of d) (j - 1)) /\
  s_free_blocks_count d' = (s_free_blocks_count d - 1) mod 2 ^ 32 /\
  bg_free_blocks_count d' = (bg_free_blocks_count d - 1) mod 2 ^ 16.
Proof.
  intros Hbb (Hk & Hfree & Hbelow). unfold block_free in *.
  assert (Hscan : scan_bitmap d (block_bitmap_of d) 0 (s_blocks_count d) = k - 1).
  { apply scan_bitmap_finds; [lia | assumption |].
    intros j Hj. replace j with (j + 1 - 1) by lia. apply Hbelow. lia. }
  unfold new_block. rewrite Hscan.
  destruct (Z.eqb_spec (k - 1) (s_blocks_count d)) as [E | _]; [lia |].
  cbn [fst snd].
  set (bm := block_bitmap_of d).
  set (d1 := set_bitmap d bm (k - 1) 1).
  set (d2 := set_s_free_blocks_count d1 (s_free_blocks_count d1 - 1)).
  set (d3 := set_bg_free_blocks_count d2 (bg_free_blocks_count d2 - 1)).
  assert (Hbm : 3072 <= bm) by (unfold bm, block_bitmap_of, EXT2_BLOCK_SIZE; lia).
  assert (Hq : forall i, 0 <= i -> 0 <= Z.quot i 8).
  { intros i Hi. rewrite Z.quot_div_nonneg by lia. apply Z.div_pos; lia. }
  assert (H1 : forall x, x < 3072 -> d1 x = d x).
  { intros x Hx. apply set_bitmap_frame. specialize (Hq (k - 1)). lia. }
  destruct (header_fields_after_high_write d d1 H1)
    as (Hbb1 & _ & _ & _ & _ & _ & Hsf1 & _ & Hgf1).
  assert (H2 : forall x, x < 1036 \/ 1040 <= x -> d2 x = d1 x).
  { intros x Hx. apply set32_frame. unfold super_block, EXT2_BLOCK_SIZE. lia. }
  assert (H3 : forall x, x < 2060 \/ 2062 <= x -> d3 x = d2 x).
  { intros x Hx. apply set16_frame. unfold group_desc, EXT2_BLOCK_SIZE. lia. }
  assert (Hbb3 : block_bitmap_of d3 = bm).
  { unfold bm, block_bitmap_of. f_equal. rewrite <- Hbb1.
    unfold bg_block_bitmap, group_desc, EXT2_BLOCK_SIZE.
    apply get32_ext. intros x Hx. rewrite H3, H2 by lia. reflexivity. }
  assert (Hbits : forall i, 0 <= i -> check_bitmap d3 bm i = check_bitmap d1 bm i).
  { intros i Hi. apply check_bitmap_ext.
    specialize (Hq i Hi). rewrite H3, H2 by lia. reflexivity. }
  split; [lia |]. split; [| split; [| split]].
  - rewrite Hbb3, Hbits by lia. unfold d1.
    rewrite check_set_bitmap_same by lia. discriminate.
  - intros j Hj Hne. rewrite Hbb3, Hbits by lia.
    apply check_set_bitmap_other; lia.
  - unfold s_free_blocks_count at 1.
    rewrite (get32_ext d2 d3) by (intros; apply H3;
      unfold super_block, EXT2_BLOCK_SIZE in *; lia).
    unfold d2, set_s_free_blocks_count. rewrite set32_same, Hsf1. reflexivity.
  - unfold bg_free_blocks_count at 1.
    unfold d3, set_bg_free_blocks_count. rewrite set16_same.
    f_equal. f_equal. rewrite <- Hgf1.
    unfold bg_free_blocks_count. apply get16_ext.
    intros x Hx. apply H2. unfold group_desc, EXT2_BLOCK_SIZE in *. lia.
Qed.

Lemma empty_image_block_bits j :
  0 <= j < 9 -> check_bitmap Images.empty_image 3072 j <> 0.
Proof.
  intros Hj.
  assert (H : forallb (fun j => negb (check_bitmap Images.empty_image 3072 j =? 0))
                (List.map Z.of_nat (seq 0 9)) = true) by (vm_compute; reflexivity).
  rewrite forallb_forall in H.
  specialize (H j). rewrite negb_true_iff, Z.eqb_neq in H. apply H.
  replace j with (Z.of_nat (Z.to_nat j)) by lia.
  apply in_map, in_seq. lia.
Qed.

Lemma new_block_first_fit_witness :
  snd (new_block Images.empty_image) = 10 /\
  ~ block_free (fst (new_block Images.empty_image)) 10.
Proof.
  assert (H : lowest_free_block Images.empty_image 10).
  { split; [vm_compute; split; discriminate |].
    split; [vm_compute; reflexivity |].
    intros j Hj. unfold block_free.
    change (block_bitmap_of Images.empty_image) with 3072.
    apply empty_image_block_bits. lia. }
  assert (Hbb : 3 <= bg_block_bitmap Images.empty_image)
    by (vm_compute; discriminate).
  pose proof (new_block_first_fit Images.empty_image 10 Hbb H) as (Hr & Hu & _).
  split; assumption.
Defined.

(** X5: when the first [s_blocks_count] bits of the block bitmap are all
    set, [new_block] returns [-ENOSPC] and leaves the image as it is. *)
Theorem new_block_no_space d :
  (forall j, 0 <= j < s_blocks_count d ->
     check_bitmap d (block_bitmap_of d) j <> 0) ->
  new_block d = (d, - ENOSPC).
Proof.
  intros Hfull. unfold new_block, scan_bitmap.
  pose proof (get32_range d (super_block + 4)) as Hr.
  fold (s_blocks_count d) in Hr.
  rewrite first_clear_none.
  - rewrite Z2Nat.id by lia.
    replace (0 + (s_blocks_count d - 0)) with (s_blocks_count d) by lia.
    rewrite Z.eqb_refl. reflexivity.
  - intros j Hj. apply Hfull. rewrite Z2Nat.id in Hj by lia. lia.
Qed.

Lemma full_image_block_bits j :
  0 <= j < 128 -> check_bitmap Images.full_image 3072 j <> 0.
Proof.
  intros Hj.
  assert (H : forallb (fun j => negb (check_bitmap Images.full_image 3072 j =? 0))
                (List.map Z.of_nat (seq 0 128)) = true) by (vm_compute; reflexivity).
  rewrite forallb_forall in H.
  specialize (H j). rewrite negb_true_iff, Z.eqb_neq in H. apply H.
  replace j with (Z.of_nat (Z.to_nat j)) by lia.
  apply in_map, in_seq. lia.
Qed.

Lemma new_block_no_space_witness :
  snd (new_block Images.full_image) = - ENOSPC.
Proof.
  rewrite (new_block_no_space Images.full_image).
  - reflexivity.
  - intros j Hj.
    change (block_bitmap_of Images.full_image) with 3072.
    apply full_image_block_bits.
    assert (s_blocks_count Images.full_image = 128) by (vm_compute; reflexivity).
    lia.
Defined.

(** ** [init_inode] *)

(** X6: [init_inode(disk, n)] writes inside the record at table index
    [n], the record of inode number [n + 1], and nowhere else: the record
    at index [n - 1] that the callers go on to fill is left as it was.  In
    the record it does write, mode, size, link count and deletion time are
    0 and [i_ctime] is the current time, while [i_blocks] and the 15 slots
    of [i_block] keep their old content. *)
Theorem init_inode_writes_record_n d n now :
  let ino := inode_at (inode_table_of d) n in
  let d' := init_inode d n now in
  (forall x, x < ino \/ ino + 116 <= x -> d' x = d x) /\
  (forall x, inode_at (inode_table_of d) (n - 1) <= x < ino -> d' x = d x) /\
  i_mode d' ino = 0 /\ i_size d' ino = 0 /\ i_links_count d' ino = 0 /\
  i_dtime d' ino = 0 /\ i_ctime d' ino = now mod 2 ^ 32 /\
  i_blocks d' ino = i_blocks d ino /\
  (forall k, 0 <= k < 15 -> i_block d' ino k = i_block d ino k).
Proof.
  intros ino d'.
  assert (Hf : forall x,
             x < ino \/ ino + 116 <= x \/ ino + 28 <= x < ino + 32 \/
             ino + 40 <= x < ino + 100 -> d' x = d x).
  { intros x Hx. unfold d', init_inode. fold ino.
    unfold set_i_mode, set_i_size, set_i_links_count, set_i_atime, set_i_ctime,
      set_i_mtime, set_i_dtime, set_i_uid, set_i_gid, set_i_flags, set_osd1,
      set_i_generation, set_i_file_acl, set_i_dir_acl, set_i_faddr.
    repeat first [rewrite set32_frame by lia | rewrite set16_frame by lia].
    reflexivity. }
  split; [intros; apply Hf; lia |].
  split; [intros; apply Hf; lia |].
  unfold d', init_inode. fold ino.
  unfold set_i_mode, set_i_size, set_i_links_count, set_i_atime, set_i_ctime,
    set_i_mtime, set_i_dtime, set_i_uid, set_i_gid, set_i_flags, set_osd1,
    set_i_generation, set_i_file_acl, set_i_dir_acl, set_i_faddr.
  repeat split.
  - unfold i_mode.
    repeat first [rewrite get16_set32 by lia | rewrite get16_set16 by lia].
    rewrite set16_same. reflexivity.
  - unfold i_size.
    repeat first [rewrite get32_set32 by lia | rewrite get32_set16 by lia].
    rewrite set32_same. reflexivity.
  - unfold i_links_count.
    repeat first [rewrite get16_set32 by lia | rewrite get16_set16 by lia].
    rewrite set16_same. reflexivity.
  - unfold i_dtime.
    repeat first [rewrite get32_set32 by lia | rewrite get32_set16 by lia].
    rewrite set32_same. reflexivity.
  - unfold i_ctime.
    repeat first [rewrite get32_set32 by lia | rewrite get32_set16 by lia].
    rewrite set32_same. reflexivity.
  - unfold i_blocks.
    repeat first [rewrite get32_set32 by lia | rewrite get32_set16 by lia].
    reflexivity.
  - intros k Hk. unfold i_block.
    repeat first [rewrite get32_set32 by lia | rewrite get32_set16 by lia].
    reflexivity.
Qed.

(** ** [parse_path] *)

Lemma after_last_slash_app dir name :
  ~ In slash name -> after_last_slash (dir ++ slash :: name) = name.
Proof.
  intros H. induction dir as [| c dir IH].
  - cbn [app after_last_slash]. rewrite existsb_slash_false by assumption.
    rewrite Z.eqb_refl. reflexivity.
  - cbn [app after_last_slash].
    rewrite existsb_app. cbn [existsb]. rewrite Z.eqb_refl, orb_true_r.
    exact IH.
Qed.

Lemma last_app_cons (l1 : list Z) a l2 :
  l2 <> [] -> last (l1 ++ a :: l2) 0 = last l2 0.
Proof.
  intros H. induction l1 as [| c l1 IH].
  - destruct l2; [congruence | reflexivity].
  - cbn [app]. destruct (l1 ++ a :: l2) eqn:E.
    + destruct l1; discriminate.
    + exact IH.
Qed.

Lemma parse_path_no_trailing dir name :
  name <> [] -> ~ In slash name ->
  match dir with [] => True | c :: _ => c = slash end ->
  parse_path (dir ++ slash :: name)
  = inr (match dir with [] => [slash] | _ => dir end, name, dir).
Proof.
  intros Hne Hns Hdir.
  assert (Hhd : exists rest, dir ++ slash :: name = slash :: rest).
  { destruct dir as [| c dir]; [eexists; reflexivity |].
    subst c. eexists. reflexivity. }
  destruct Hhd as (rest & Hrest).
  unfold parse_path. rewrite Hrest. rewrite Z.eqb_refl. cbn [negb].
  rewrite <- Hrest.
  assert (Hlast : (last (dir ++ slash :: name) 0 =? slash) = false).
  { rewrite last_app_cons by assumption. apply Z.eqb_neq.
    intros E. apply Hns. rewrite <- E. apply last_in. assumption. }
  rewrite Hlast, andb_false_r.
  rewrite after_last_slash_app by assumption.
  replace (List.length (dir ++ slash :: name) - List.length name - 1)%nat
    with (List.length dir) by (rewrite length_app; simpl; lia).
  rewrite firstn_app, Nat.sub_diag, firstn_all. cbn [firstn].
  rewrite app_nil_r. reflexivity.
Qed.

(** X7: [parse_path] splits an absolute path at its last slash.  For a
    directory part [dir] (empty, or beginning with a slash) and a last
    component [name] without a slash, the path [dir/name] gives the parent
    path [dir] ("/" when [dir] is empty) and the name [name], and cuts the
    caller's string down to [dir]; one trailing slash changes nothing. *)
Theorem parse_path_splits_at_last_slash dir name :
  name <> [] -> ~ In slash name ->
  match dir with [] => True | c :: _ => c = slash end ->
  let parent := match dir with [] => [slash] | _ => dir end in
  parse_path (dir ++ slash :: name) = inr (parent, name, dir) /\
  parse_path (dir ++ slash :: name ++ [slash]) = inr (parent, name, dir).
Proof.
  intros Hne Hns Hdir parent.
  split; [apply parse_path_no_trailing; assumption |].
  pose proof (parse_path_no_trailing dir name Hne Hns Hdir) as H.
  assert (Hhd : exists rest, dir ++ slash :: name ++ [slash] = slash :: rest).
  { destruct dir as [| c dir]; [eexists; reflexivity |].
    subst c. eexists. reflexivity. }
  destruct Hhd as (rest & Hrest).
  assert (Hhd' : exists rest', dir ++ slash :: name = slash :: rest').
  { destruct dir as [| c dir]; [eexists; reflexivity |].
    subst c. eexists. reflexivity. }
  destruct Hhd' as (rest' & Hrest').
  unfold parse_path in *. rewrite Hrest. rewrite Hrest' in H.
  rewrite Z.eqb_refl in *. cbn [negb] in *.
  rewrite <- Hrest. rewrite <- Hrest' in H.
  assert (Hlong : dir ++ slash :: name ++ [slash] = (dir ++ slash :: name) ++ [slash]).
  { rewrite <- app_assoc. reflexivity. }
  assert (Hl1 : (1 <? Z.of_nat (List.length (dir ++ slash :: name ++ [slash]))) = true).
  { apply Z.ltb_lt. rewrite Hlong, !length_app. simpl.
    destruct name; [congruence | simpl; lia]. }
  assert (Hl2 : (last (dir ++ slash :: name ++ [slash]) 0 =? slash) = true).
  { rewrite Hlong, last_last. apply Z.eqb_refl. }
  rewrite Hl1, Hl2. cbn [andb].
  rewrite Hlong, removelast_last.
  assert (Hlast : (last (dir ++ slash :: name) 0 =? slash) = false).
  { rewrite last_app_cons by assumption. apply Z.eqb_neq.
    intros E. apply Hns. rewrite <- E. apply last_in. assumption. }
  rewrite Hlast, andb_false_r in H. exact H.
Qed.

Lemma parse_path_splits_at_last_slash_witness :
  parse_path (of_string "/a/b/c") = inr (of_string "/a/b", of_string "c", of_string "/a/b") /\
  parse_path (of_string "/x/") = inr (of_string "/", of_string "x", []).
Proof.
  split.
  - apply (parse_path_splits_at_last_slash (of_string "/a/b") (of_string "c")).
    + discriminate.
    + vm_compute. intuition discriminate.
    + reflexivity.
  - apply (parse_path_splits_at_last_slash [] (of_string "x")).
    + discriminate.
    + vm_compute. intuition discriminate.
    + exact I.
Defined.



(** ** Block counts and block slots *)



Lemma store_block_seq n :
  forall d ino a b k,
    0 <= a ->
    a <= k < a + Z.of_nat n ->
    (forall j, a <= j < k -> i_block d ino j <> 0) ->
    i_block d ino k = 0 ->
    store_block d ino (List.map Z.of_nat (seq (Z.to_nat a) n)) b
    = set_i_block d ino k b.
Proof.
  induction n as [| n IH]; intros d ino a b k Ha Hk Hbelow H0; [lia |].
  cbn [seq List.map store_block].
  rewrite Z2Nat.id by lia.
  destruct (Z.eq_dec a k) as [-> | Hne].
  - rewrite H0. reflexivity.
  - destruct (Z.eqb_spec (i_block d ino a) 0) as [E | _].
    + exfalso. apply (Hbelow a); [lia | assumption].
    + replace (S (Z.to_nat a)) with (Z.to_nat (a + 1)) by lia.
      apply IH; try assumption; try lia.
      intros j Hj. apply Hbelow. lia.
Qed.

Lemma store_block_seq_full n :
  forall d ino a b,
    0 <= a ->
    (forall j, a <= j < a + Z.of_nat n -> i_block d ino j <> 0) ->
    store_block d ino (List.map Z.of_nat (seq (Z.to_nat a) n)) b = d.
Proof.
  induction n as [| n IH]; intros d ino a b Ha Hfull; [reflexivity |].
  cbn [seq List.map store_block].
  rewrite Z2Nat.id by lia.
  destruct (Z.eqb_spec (i_block d ino a) 0) as [E | _].
  - exfalso. apply (Hfull a); [lia | assumption].
  - replace (S (Z.to_nat a)) with (Z.to_nat (a + 1)) by lia.
    apply IH; [lia |]. intros j Hj. apply Hfull. lia.
Qed.

(** X10: the loop that records a new block in an inode (ext2_mkdir,
    ext2_cp, ext2_ln) stores it in the first of the 12 direct slots that
    holds 0 and touches nothing else; when the 12 slots are all taken the
    image is left as it is and the block number is not recorded. *)
Theorem store_block_first_empty_slot d ino b :
  (forall k, 0 <= k < 12 ->
     (forall j, 0 <= j < k -> i_block d ino j <> 0) ->
     i_block d ino k = 0 ->
     store_block d ino direct_slots b = set_i_block d ino k b) /\
  ((forall j, 0 <= j < 12 -> i_block d ino j <> 0) ->
   store_block d ino direct_slots b = d).
Proof.
  change direct_slots with (List.map Z.of_nat (seq (Z.to_nat 0) 12)).
  split.
  - intros k Hk Hbelow H0. apply store_block_seq; try assumption; simpl; lia.
  - intros Hfull. apply store_block_seq_full; [lia |].
    intros j Hj. apply Hfull. simpl in Hj. lia.
Qed.

Lemma store_block_first_empty_slot_witness :
  let ino := inode_at (inode_table_of Images.tree_image) 12 in
  store_block Images.tree_image ino direct_slots 20
  = set_i_block Images.tree_image ino 2 20.
Proof.
  intros ino.
  destruct (store_block_first_empty_slot Images.tree_image ino 20) as (H & _).
  apply H.
  - lia.
  - intros j Hj. assert (j = 0 \/ j = 1) as [-> | ->] by lia;
      vm_compute; discriminate.
  - vm_compute. reflexivity.
Defined.

(** ** File types in the dump tool and in the checker *)

Lemma land_bit15 m :
  Z.land m 32768 <> 0 -> Z.testbit m 15 = true.
Proof.
  intros H. destruct (Z.testbit m 15) eqn:E; [reflexivity |].
  exfalso. apply H. apply Z.bits_inj'. intros n Hn.
  rewrite Z.land_spec, Z.bits_0.
  change 32768 with (2 ^ 15). rewrite Z.pow2_bits_eqb by lia.
  destruct (Z.eqb_spec 15 n) as [<- | _].
  - rewrite E. reflexivity.
  - apply andb_false_r.
Qed.

Lemma bit15_land m c :
  Z.testbit m 15 = true -> Z.testbit c 15 = true -> Z.land m c <> 0.
Proof.
  intros Hm Hc E.
  assert (H : Z.testbit (Z.land m c) 15 = true)
    by (rewrite Z.land_spec, Hm, Hc; reflexivity).
  rewrite E, Z.bits_0 in H. discriminate.
Qed.

(** X11: [get_inode_type] tests [mode & EXT2_S_IFREG] first, and the
    symbolic-link format [EXT2_S_IFLNK] contains that bit: every mode of
    symbolic-link format is reported as 'f', and a mode reported as 'l' is
    not of symbolic-link format. *)
Theorem get_inode_type_reports_symlink_as_file mode :
  (Z.land mode EXT2_S_IFLNK = EXT2_S_IFLNK ->
   Readimage.get_inode_type mode = Some "f"%char) /\
  (Readimage.get_inode_type mode = Some "l"%char ->
   Z.land mode EXT2_S_IFLNK <> EXT2_S_IFLNK).
Proof.
  assert (H : Z.land mode EXT2_S_IFLNK = EXT2_S_IFLNK ->
              Z.land mode EXT2_S_IFREG <> 0).
  { intros E. apply bit15_land; [| reflexivity].
    assert (Hb : Z.testbit (Z.land mode EXT2_S_IFLNK) 15 = true)
      by (rewrite E; reflexivity).
    rewrite Z.land_spec in Hb. apply andb_true_iff in Hb. tauto. }
  unfold Readimage.get_inode_type. split.
  - intros E. specialize (H E).
    destruct (Z.eqb_spec (Z.land mode EXT2_S_IFREG) 0); [contradiction | reflexivity].
  - intros Hl E. specialize (H E).
    destruct (Z.eqb_spec (Z.land mode EXT2_S_IFREG) 0); [contradiction |].
    simpl in Hl. discriminate.
Qed.

Lemma get_inode_type_reports_symlink_as_file_witness :
  Readimage.get_inode_type (Z.lor EXT2_S_IFLNK 511) = Some "f"%char.
Proof.
  apply (get_inode_type_reports_symlink_as_file (Z.lor EXT2_S_IFLNK 511)).
  reflexivity.
Defined.

(** X12: for an inode whose mode contains the bit [EXT2_S_IFREG] (the
    regular files and the symbolic links), [check_mode] accepts no entry:
    whatever the type stored in the entry, it stores a different type and
    counts one repair. *)
Theorem check_mode_always_repairs_regular d total_err inode dir :
  Z.land (i_mode d inode) EXT2_S_IFREG <> 0 ->
  let st := Checker.check_mode (d, total_err) inode dir in
  snd st = total_err + 1 /\ file_type (fst st) dir <> file_type d dir.
Proof.
  intros Hreg. pose proof (land_bit15 _ Hreg) as Hbit.
  assert (Hlnk : Z.land (i_mode d inode) EXT2_S_IFLNK <> 0)
    by (apply bit15_land; [assumption | reflexivity]).
  unfold Checker.check_mode.
  destruct (Z.eqb_spec (Z.land (i_mode d inode) EXT2_S_IFREG) 0); [contradiction |].
  destruct (Z.eqb_spec (Z.land (i_mode d inode) EXT2_S_IFLNK) 0); [contradiction |].
  cbn [negb andb].
  destruct (Z.eqb_spec (file_type d dir) EXT2_FT_REG_FILE) as [E | E]; cbn [negb].
  - destruct (Z.eqb_spec (Z.land (i_mode d inode) EXT2_S_IFDIR) 0); cbn [negb andb].
    + destruct (Z.eqb_spec (file_type d dir) EXT2_FT_SYMLINK) as [E' | _];
        [rewrite E in E'; discriminate |].
      cbn [negb fst snd]. split; [reflexivity |].
      unfold file_type at 1, set_file_type. rewrite set8_same.
      fold (file_type d dir). rewrite E. discriminate.
    + destruct (Z.eqb_spec (file_type d dir) EXT2_FT_DIR) as [E' | _];
        [rewrite E in E'; discriminate |].
      cbn [negb fst snd]. split; [reflexivity |].
      unfold file_type at 1, set_file_type. rewrite set8_same.
      fold (file_type d dir). rewrite E. discriminate.
  - cbn [fst snd]. split; [reflexivity |].
    unfold file_type at 1, set_file_type. rewrite set8_same.
    fold (file_type d dir). intros E'. apply E. rewrite <- E'. reflexivity.
Qed.

Lemma check_mode_always_repairs_regular_witness :
  let d := Images.tree_image in
  snd (Checker.check_mode (d, 0) (inode_at (inode_table_of d) 12)
         (root_dir_of d + 36)) = 1.
Proof.
  intros d.
  apply (check_mode_always_repairs_regular d 0 (inode_at (inode_table_of d) 12)
           (root_dir_of d + 36)).
  vm_compute. discriminate.
Defined.

(** ** ext2_ln: the source of a link *)

Lemma is_root_path_slash : is_root_path [slash] = true.
Proof. reflexivity. Qed.

(** X13: ext2_ln does not look up a source that lies directly under the
    root: the source inode is taken to be 2.  A hard link from [/n1] runs
    exactly as a hard link from [/n2], whether or not those files exist,
    and no [ENOENT] comes from the source. *)
Theorem ln_hard_link_ignores_root_source_name fuel d n1 n2 dest now :
  n1 <> [] -> ~ In slash n1 -> n2 <> [] -> ~ In slash n2 ->
  Ln.main fuel d false (slash :: n1) dest now
  = Ln.main fuel d false (slash :: n2) dest now.
Proof.
  intros H1 H1' H2 H2'. unfold Ln.main.
  rewrite !parse_path_under_root by assumption.
  unfold root_or_find at 1 4. rewrite is_root_path_slash.
  reflexivity.
Qed.

Lemma ln_hard_link_ignores_root_source_name_witness :
  Ln.main 50 Images.tree_image false (of_string "/hello.txt") (of_string "/w") 1000
  = Ln.main 50 Images.tree_image false (of_string "/missing") (of_string "/w") 1000.
Proof.
  apply (ln_hard_link_ignores_root_source_name 50 Images.tree_image
           (of_string "hello.txt") (of_string "missing") (of_string "/w") 1000).
  - discriminate.
  - vm_compute. intuition discriminate.
  - discriminate.
  - vm_compute. intuition discriminate.
Defined.


(** ** The counters of the checker *)

Lemma used_bits_range n :
  forall d bitmap i, 0 <= i -> 0 <= used_bits n d bitmap i <= Z.of_nat n.
Proof.
  induction n as [| n IH]; intros d bitmap i Hi; [simpl; lia |].
  cbn [used_bits]. specialize (IH d bitmap (i + 1) ltac:(lia)).
  destruct (check_bitmap_01 d bitmap i Hi) as [-> | ->]; lia.
Qed.

Lemma count_down_used_bits n :
  forall d bitmap i actual,
    0 <= i ->
    Checker.count_down n d bitmap i actual = actual - used_bits n d bitmap i.
Proof.
  induction n as [| n IH]; intros d bitmap i actual Hi; [simpl; lia |].
  cbn [Checker.count_down used_bits]. rewrite IH by lia.
  destruct (check_bitmap_01 d bitmap i Hi) as [E | E]; rewrite E;
    [change (0 =? 0) with true | change (1 =? 0) with false]; cbv iota; lia.
Qed.

Lemma used_bits_ext n :
  forall d d' bitmap i,
    0 <= i ->
    (forall x, bitmap <= x -> d' x = d x) ->
    used_bits n d' bitmap i = used_bits n d bitmap i.
Proof.
  induction n as [| n IH]; intros d d' bitmap i Hi H; [reflexivity |].
  cbn [used_bits]. rewrite (IH d d') by (assumption || lia).
  f_equal. apply check_bitmap_ext, H.
  rewrite Z.quot_div_nonneg by lia.
  assert (0 <= i / 8) by (apply Z.div_pos; lia). lia.
Qed.

Lemma to_int_small v : 0 <= v < 2147483648 -> Checker.to_int v = v.
Proof.
  intros H. unfold Checker.to_int.
  destruct (Z.ltb_spec v 2147483648); [reflexivity | lia].
Qed.

(** X14: [check_counters] trusts the bitmaps.  On an image with fewer
    than 65536 inodes and blocks whose bitmaps lie after the group
    descriptor, the four free counters are afterwards the numbers of clear
    bits in the two bitmaps, the error total grows by the absolute
    difference of each counter from that number, nothing but the four
    counters is written, and a second pass changes nothing and reports
    nothing. *)
Theorem check_counters_sets_counters_from_bitmaps g d total_err :
  3072 <= Checker.inode_bitmap g -> 3072 <= Checker.block_bitmap g ->
  s_inodes_count d < 65536 -> s_blocks_count d < 65536 ->
  let fi := free_inodes_in_bitmap d (Checker.inode_bitmap g) in
  let fb := free_blocks_in_bitmap d (Checker.block_bitmap g) in
  let st := Checker.check_counters g (d, total_err) in
  s_free_inodes_count (fst st) = fi /\
  bg_free_inodes_count (fst st) = fi /\
  s_free_blocks_count (fst st) = fb /\
  bg_free_blocks_count (fst st) = fb /\
  snd st = total_err
           + Z.abs (fi - Checker.to_int (s_free_inodes_count d))
           + Z.abs (fi - bg_free_inodes_count d)
           + Z.abs (fb - Checker.to_int (s_free_blocks_count d))
           + Z.abs (fb - bg_free_blocks_count d) /\
  (forall x, ~ (1036 <= x < 1044 \/ 2060 <= x < 2064) -> fst st x = d x) /\
  Checker.check_counters g st = st.
Proof.
  intros Hib Hbb Hic Hbc fi fb.
  pose proof (get32_range d (super_block + 0)) as Hic0. fold (s_inodes_count d) in Hic0.
  pose proof (get32_range d (super_block + 4)) as Hbc0. fold (s_blocks_count d) in Hbc0.
  assert (Hfi : 0 <= fi <= s_inodes_count d).
  { unfold fi, free_inodes_in_bitmap.
    pose proof (used_bits_range (Z.to_nat (s_inodes_count d)) d
                  (Checker.inode_bitmap g) 0 ltac:(lia)). lia. }
  assert (Hfb : 0 <= fb <= s_blocks_count d).
  { unfold fb, free_blocks_in_bitmap.
    pose proof (used_bits_range (Z.to_nat (s_blocks_count d)) d
                  (Checker.block_bitmap g) 0 ltac:(lia)). lia. }
  (* what one pass computes on any image that agrees with [d] outside the
     four counters *)
  assert (Hpass : forall (d0 : disk) (t0 : Z),
            (forall x, ~ (1036 <= x < 1044 \/ 2060 <= x < 2064) -> d0 x = d x) ->
            exists d' t',
              Checker.check_counters g (d0, t0) = (d', t') /\
              s_free_inodes_count d' = fi /\
              bg_free_inodes_count d' = fi /\
              s_free_blocks_count d' = fb /\
              bg_free_blocks_count d' = fb /\
              t' = t0
                   + Z.abs (fi - Checker.to_int (s_free_inodes_count d0))
                   + Z.abs (fi - bg_free_inodes_count d0)
                   + Z.abs (fb - Checker.to_int (s_free_blocks_count d0))
                   + Z.abs (fb - bg_free_blocks_count d0) /\
              (forall x, ~ (1036 <= x < 1044 \/ 2060 <= x < 2064) -> d' x = d x) /\
              (s_free_inodes_count d0 = fi -> bg_free_inodes_count d0 = fi ->
               s_free_blocks_count d0 = fb -> bg_free_blocks_count d0 = fb ->
               (d', t') = (d0, t0))).
  { intros d0 t0 Hd0.
    assert (Hic' : s_inodes_count d0 = s_inodes_count d).
    { unfold s_inodes_count. apply get32_ext. intros x Hx. apply Hd0.
      unfold super_block, EXT2_BLOCK_SIZE in Hx. lia. }
    assert (Hbc' : s_blocks_count d0 = s_blocks_count d).
    { unfold s_blocks_count. apply get32_ext. intros x Hx. apply Hd0.
      unfold super_block, EXT2_BLOCK_SIZE in Hx. lia. }
    unfold Checker.check_counters. cbv zeta.
    rewrite Hic'. rewrite to_int_small by lia.
    rewrite count_down_used_bits by lia.
    rewrite (used_bits_ext _ d d0) by (try lia; intros; apply Hd0; lia).
    fold (free_inodes_in_bitmap d (Checker.inode_bitmap g)). fold fi.
    rewrite (Z.mod_small fi) by lia.
    match goal with
    | |- context [let '(_, _) := ?p in _] => set (p1 := p)
    end.
    assert (Hp1 : s_free_inodes_count (fst p1) = fi /\
                  snd p1 = t0 + Z.abs (fi - Checker.to_int (s_free_inodes_count d0)) /\
                  (forall x, x < 1040 \/ 1044 <= x -> fst p1 x = d0 x) /\
                  (s_free_inodes_count d0 = fi -> p1 = (d0, t0))).
    { unfold p1. destruct (Z.eqb_spec (s_free_inodes_count d0) fi) as [E | E].
      - cbn [fst snd]. rewrite E, to_int_small by lia.
        repeat split; auto. lia.
      - cbn [fst snd]. repeat split.
        + unfold s_free_inodes_count, set_s_free_inodes_count.
          rewrite set32_same. apply Z.mod_small. lia.
        + intros x Hx. apply set32_frame.
          unfold super_block, EXT2_BLOCK_SIZE. lia.
        + intros E'. contradiction. }
    clearbody p1. destruct p1 as [d1 t1]. cbn [fst snd] in Hp1. cbv beta iota zeta.
    destruct Hp1 as (Hs1 & Ht1 & Hf1 & He1).
    match goal with
    | |- context [let '(_, _) := ?p in _] => set (p2 := p)
    end.
    assert (Hg1 : bg_free_inodes_count d1 = bg_free_inodes_count d0).
    { unfold bg_free_inodes_count. apply get16_ext. intros x Hx. apply Hf1.
      unfold group_desc, EXT2_BLOCK_SIZE in Hx. lia. }
    assert (Hp2 : bg_free_inodes_count (fst p2) = fi /\
                  snd p2 = t1 + Z.abs (fi - bg_free_inodes_count d0) /\
                  (forall x, x < 2062 \/ 2064 <= x -> fst p2 x = d1 x) /\
                  (bg_free_inodes_count d0 = fi -> p2 = (d1, t1))).
    { unfold p2. rewrite Hg1.
      destruct (Z.eqb_spec (bg_free_inodes_count d0) fi) as [E | E].
      - cbn [fst snd]. rewrite E. repeat split; auto; try congruence. lia.
      - cbn [fst snd]. repeat split.
        + unfold bg_free_inodes_count, set_bg_free_inodes_count.
          rewrite set16_same. apply Z.mod_small. lia.
        + intros x Hx. apply set16_frame.
          unfold group_desc, EXT2_BLOCK_SIZE. lia.
        + intros E'. contradiction. }
    clearbody p2. destruct p2 as [d2 t2]. cbn [fst snd] in Hp2. cbv beta iota zeta.
    destruct Hp2 as (Hg2 & Ht2 & Hf2 & He2).
    assert (Hd2 : forall x, ~ (1036 <= x < 1044 \/ 2060 <= x < 2064) -> d2 x = d x).
    { intros x Hx. rewrite Hf2, Hf1 by lia. apply Hd0. assumption. }
    assert (Hbc2 : s_blocks_count d2 = s_blocks_count d).
    { unfold s_blocks_count. apply get32_ext. intros x Hx. apply Hd2.
      unfold super_block, EXT2_BLOCK_SIZE in Hx. lia. }
    rewrite Hbc2. rewrite to_int_small by lia.
    rewrite count_down_used_bits by lia.
    rewrite (used_bits_ext _ d d2) by (try lia; intros; apply Hd2; lia).
    fold (free_blocks_in_bitmap d (Checker.block_bitmap g)). fold fb.
    rewrite (Z.mod_small fb) by lia.
    assert (Hsb2 : s_free_blocks_count d2 = s_free_blocks_count d0).
    { unfold s_free_blocks_count. apply get32_ext. intros x Hx.
      unfold super_block, EXT2_BLOCK_SIZE in Hx. rewrite Hf2, Hf1 by lia.
      reflexivity. }
    match goal with
    | |- context [let '(_, _) := ?p in _] => set (p3 := p)
    end.
    assert (Hp3 : s_free_blocks_count (fst p3) = fb /\
                  snd p3 = t2 + Z.abs (fb - Checker.to_int (s_free_blocks_count d0)) /\
                  (forall x, x < 1036 \/ 1040 <= x -> fst p3 x = d2 x) /\
                  (s_free_blocks_count d0 = fb -> p3 = (d2, t2))).
    { unfold p3. rewrite Hsb2.
      destruct (Z.eqb_spec (s_free_blocks_count d0) fb) as [E | E].
      - cbn [fst snd]. rewrite E, to_int_small by lia.
        repeat split; auto; try congruence. lia.
      - cbn [fst snd]. repeat split.
        + unfold s_free_blocks_count, set_s_free_blocks_count.
          rewrite set32_same. apply Z.mod_small. lia.
        + intros x Hx. apply set32_frame.
          unfold super_block, EXT2_BLOCK_SIZE. lia.
        + intros E'. contradiction. }
    clearbody p3. destruct p3 as [d3 t3]. cbn [fst snd] in Hp3. cbv beta iota zeta.
    destruct Hp3 as (Hs3 & Ht3 & Hf3 & He3).
    assert (Hgb3 : bg_free_blocks_count d3 = bg_free_blocks_count d0).
    { unfold bg_free_blocks_count. apply get16_ext. intros x Hx.
      unfold group_desc, EXT2_BLOCK_SIZE in Hx. rewrite Hf3, Hf2, Hf1 by lia.
      reflexivity. }
    match goal with
    | |- context [let '(_, _) := ?p in _] => set (p4 := p)
    end.
    assert (Hp4 : bg_free_blocks_count (fst p4) = fb /\
                  snd p4 = t3 + Z.abs (fb - bg_free_blocks_count d0) /\
                  (forall x, x < 2060 \/ 2062 <= x -> fst p4 x = d3 x) /\
                  (bg_free_blocks_count d0 = fb -> p4 = (d3, t3))).
    { unfold p4. rewrite Hgb3.
      destruct (Z.eqb_spec (bg_free_blocks_count d0) fb) as [E | E].
      - cbn [fst snd]. rewrite E. repeat split; auto; try congruence. lia.
      - cbn [fst snd]. repeat split.
        + unfold bg_free_blocks_count, set_bg_free_blocks_count.
          rewrite set16_same. apply Z.mod_small. lia.
        + intros x Hx. apply set16_frame.
          unfold group_desc, EXT2_BLOCK_SIZE. lia.
        + intros E'. contradiction. }
    clearbody p4. destruct p4 as [d4 t4]. cbn [fst snd] in Hp4. cbv beta iota zeta.
    destruct Hp4 as (Hg4 & Ht4 & Hf4 & He4).
    exists d4, t4. split; [reflexivity |].
    split; [| split; [| split; [| split; [| split; [| split]]]]].
    - rewrite <- Hs1. unfold s_free_inodes_count. apply get32_ext.
      intros x Hx. unfold super_block, EXT2_BLOCK_SIZE in Hx.
      rewrite Hf4, Hf3, Hf2 by lia. reflexivity.
    - rewrite <- Hg2. unfold bg_free_inodes_count. apply get16_ext.
      intros x Hx. unfold group_desc, EXT2_BLOCK_SIZE in Hx.
      rewrite Hf4, Hf3 by lia. reflexivity.
    - rewrite <- Hs3. unfold s_free_blocks_count. apply get32_ext.
      intros x Hx. unfold super_block, EXT2_BLOCK_SIZE in Hx.
      rewrite Hf4 by lia. reflexivity.
    - exact Hg4.
    - lia.
    - intros x Hx. rewrite Hf4, Hf3 by lia. apply Hd2. assumption.
    - intros E1 E2 E3 E4.
      specialize (He1 E1). injection He1 as -> ->.
      specialize (He2 E2). injection He2 as -> ->.
      specialize (He3 E3). injection He3 as -> ->.
      specialize (He4 E4). injection He4 as -> ->.
      reflexivity. }
  intros st.
  destruct (Hpass d total_err ltac:(auto))
    as (d' & t' & Erun & H1 & H2 & H3 & H4 & H5 & H6 & _).
  unfold st. rewrite Erun. cbn [fst snd].
  repeat split; try assumption.
  destruct (Hpass d' t' H6) as (d'' & t'' & Erun' & _ & _ & _ & _ & _ & _ & H7).
  rewrite Erun'. apply H7; assumption.
Qed.

Lemma check_counters_sets_counters_from_bitmaps_witness :
  let g := {| Checker.inode_table := 5120;
              Checker.inode_bitmap := 4096;
              Checker.block_bitmap := 3072 |} in
  let d := set_s_free_inodes_count Images.tree_image 5 in
  let st := Checker.check_counters g (d, 0) in
  s_free_inodes_count (fst st) = 18 /\ snd st = 13 /\
  Checker.check_counters g st = st.
Proof.
  intros g d st.
  destruct (check_counters_sets_counters_from_bitmaps g d 0)
    as (E1 & _ & _ & _ & E5 & _ & E7).
  - simpl. lia.
  - simpl. lia.
  - vm_compute. reflexivity.
  - vm_compute. reflexivity.
  - split; [| split].
    + etransitivity; [exact E1 | vm_compute; reflexivity].
    + etransitivity; [exact E5 | vm_compute; reflexivity].
    + exact E7.
Defined.
